(** * The JIRA ticket tool: ticket-set state manager

    A shallow embedding of [jiraUI_ENG_pub_v1.2.py]: the in-memory ticket
    collection of [JiraUI], its merge with fetched pages and search results,
    the locked set, the display order, the identity cache, the mention
    rewriter and the conversation assembler.

    Strings are [string]s whose characters stand for code points below 256.
    The remote service is a record of functions that says, for the duration
    of one user action, what each remote call answers. *)

From Stdlib Require Import ZArith Ascii String List Sorted Permutation Lia.
From stdpp Require Import base option gmap sets list strings pretty.

Open Scope string_scope.
Open Scope list_scope.

(** ** Python built-ins on [str] *)

Module Py.

Definition code (c : ascii) : nat := nat_of_ascii c.

Definition between (lo hi n : nat) : bool := Nat.leb lo n && Nat.leb n hi.

(** [str.isspace] on code points below 256. *)
Definition is_space (c : ascii) : bool :=
  between 9 13 (code c) || between 28 32 (code c)
  || Nat.eqb (code c) 133 || Nat.eqb (code c) 160.

(** The class [\d], and the digits [int] accepts. *)
Definition is_digit (c : ascii) : bool := between 48 57 (code c).

(** The class [[A-Za-z]]. *)
Definition is_letter (c : ascii) : bool :=
  between 65 90 (code c) || between 97 122 (code c).

Definition digit_val (c : ascii) : Z := Z.of_nat (code c - 48).

Fixpoint lstrip_by (p : ascii -> bool) (s : string) : string :=
  match s with
  | String c s' => if p c then lstrip_by p s' else s
  | EmptyString => EmptyString
  end.

Fixpoint rstrip_by (p : ascii -> bool) (s : string) : string :=
  match s with
  | EmptyString => EmptyString
  | String c s' =>
      match rstrip_by p s' with
      | EmptyString => if p c then EmptyString else String c EmptyString
      | r => String c r
      end
  end.

(** [s.strip()] *)
Definition strip (s : string) : string := lstrip_by is_space (rstrip_by is_space s).

(** [s.rstrip(ch)] for a one-character argument. *)
Definition rstrip_char (ch : ascii) (s : string) : string :=
  rstrip_by (Ascii.eqb ch) s.

(** [s.endswith(ch)] for a one-character argument. *)
Fixpoint endswith_char (ch : ascii) (s : string) : bool :=
  match s with
  | EmptyString => false
  | String c EmptyString => Ascii.eqb c ch
  | String _ s' => endswith_char ch s'
  end.

(** [s.split(sep)] for a one-character separator: never the empty list. *)
Fixpoint split (sep : ascii) (s : string) : list string :=
  match s with
  | EmptyString => [EmptyString]
  | String c s' =>
      if Ascii.eqb c sep then EmptyString :: split sep s'
      else match split sep s' with
           | h :: t => String c h :: t
           | [] => [String c EmptyString]
           end
  end.

(** The digits of an [int] literal: at least one digit, single underscores
    allowed between digits only. *)
Fixpoint digits (acc : Z) (after_digit : bool) (s : string) : option Z :=
  match s with
  | EmptyString => if after_digit then Some acc else None
  | String c s' =>
      if is_digit c then digits (acc * 10 + digit_val c) true s'
      else if Ascii.eqb c "_" then
             if after_digit then digits acc false s' else None
           else None
  end.

(** The blanks [int] passes over at either end: the ASCII white space and,
    above it, the two Latin-1 spaces.  The separators 28 to 31, which
    [str.strip] removes, make [int] fail. *)
Definition is_int_space (c : ascii) : bool :=
  between 9 13 (code c) || Nat.eqb (code c) 32
  || Nat.eqb (code c) 133 || Nat.eqb (code c) 160.

Fixpoint count_digits (s : string) : nat :=
  match s with
  | EmptyString => 0
  | String c s' => (if is_digit c then 1 else 0) + count_digits s'
  end.

(** [sys.get_int_max_str_digits()], at its default. *)
Definition int_max_str_digits : nat := 4300.

(** [int(s)] in base 10 on code points below 256; [None] stands for
    [ValueError], which is also what a literal of more digits than the limit
    gives (sign and underscores do not count). *)
Definition int (s : string) : option Z :=
  match lstrip_by is_int_space (rstrip_by is_int_space s) with
  | EmptyString => None
  | String c t as u =>
      if Nat.ltb int_max_str_digits (count_digits u) then None
      else if Ascii.eqb c "+" then digits 0 false t
      else if Ascii.eqb c "-" then Z.opp <$> digits 0 false t
      else digits 0 false u
  end.

(** [s.startswith(p)], returning what follows the prefix. *)
Fixpoint drop_prefix (p s : string) : option string :=
  match p, s with
  | EmptyString, _ => Some s
  | String a p', String b s' => if Ascii.eqb a b then drop_prefix p' s' else None
  | String _ _, EmptyString => None
  end.

(** [sorted(l, key=f)]: a stable sort that, like Python's, only ever asks
    whether one key is smaller than another. *)
Section Sorted.
Context {A K : Type} (ltb : K -> K -> bool) (f : A -> K).

Fixpoint insert_by (x : A) (l : list A) : list A :=
  match l with
  | [] => [x]
  | y :: l' => if ltb (f y) (f x) then y :: insert_by x l' else x :: l
  end.

Fixpoint sorted (l : list A) : list A :=
  match l with
  | [] => []
  | x :: l' => insert_by x (sorted l')
  end.
End Sorted.

(** An insertion-ordered [dict] with string keys: assignment to a key that
    is present keeps its position, a new key goes to the end. *)
Section Dict.
Context {V : Type}.

Fixpoint dict_set (k : string) (v : V) (d : list (string * V)) : list (string * V) :=
  match d with
  | [] => [(k, v)]
  | (k', v') :: d' =>
      if String.eqb k' k then (k', v) :: d' else (k', v') :: dict_set k v d'
  end.

Fixpoint dict_get (k : string) (d : list (string * V)) : option V :=
  match d with
  | [] => None
  | (k', v') :: d' => if String.eqb k' k then Some v' else dict_get k d'
  end.

Definition dict_values (d : list (string * V)) : list V := snd <$> d.
Definition dict_keys (d : list (string * V)) : list string := fst <$> d.
End Dict.

End Py.

(** ** Data model *)

(** A user resource of the remote service. *)
Record User := { displayName : option string; name : option string }.

Record Comment := { created : string; author : User; body : string }.

(** [issue.fields]; [comments = None] is a comment field without a
    [comments] attribute. *)
Record Fields := {
  summary : string;
  description : option string;
  comments : option (list Comment)
}.

(** A ticket of [self.tickets]: an issue of the remote service, or the
    [DummyTicket] synthesized at startup, which has a key and no fields. *)
Record Ticket := { key : string; fields : option Fields }.

Definition dummy (k : string) : Ticket := {| key := k; fields := None |}.

(** Outcome of a remote call: a value, or the text of the exception raised. *)
Inductive Res (A : Type) : Type :=
| Ok (a : A)
| Raise (e : string).
Arguments Ok {A} a.
Arguments Raise {A} e.

(** What the remote service answers during one user action. *)
Record Remote := {
  connect : Res unit;                               (* JIRA(server, basic_auth) *)
  search_issues : Z -> Z -> Res (list Ticket);      (* startAt, maxResults *)
  issue : string -> Res Ticket;                     (* jira.issue(key) *)
  user : string -> Res User;                        (* jira.user(account_id) *)
  missing_attribute : string -> string
    (* the text of the AttributeError an object of the service raises when
       the named attribute is read and is not there *)
}.

Inductive Msg : Type :=
| showerror (title text : string)
| showinfo (title text : string)
| showwarning (title text : string).

Inductive Tag : Type := header | normal.

Record JiraUI := {
  current_page : Z;
  tickets : list Ticket;
  jira : bool;                          (* [self.jira] is not [None] *)
  locked_tickets : gset string;
  ticket_list : list string;            (* rows of the list box *)
  text_display : list (string * Tag)    (* segments of the text panel *)
}.

(** ** The display order *)

(** [<] on the tuples [(locked_flag, prefix, -num)]. *)
Definition tuple_ltb (a b : Z * string * Z) : bool :=
  let '(f1, p1, n1) := a in
  let '(f2, p2, n2) := b in
  if Z.eqb f1 f2 then
    if String.eqb p1 p2 then Z.ltb n1 n2 else String.ltb p1 p2
  else Z.ltb f1 f2.

Definition sort_key (locked : gset string) (ticket : Ticket) : Z * string * Z :=
  let '(prefix, num) :=
    match Py.split "-" (key ticket) with
    | [p; n] =>
        match Py.int n with
        | Some z => (p, z)
        | None => (key ticket, 0%Z)
        end
    | _ => (key ticket, 0%Z)
    end in
  let locked_flag := if decide (key ticket ∈ locked) then 0%Z else 1%Z in
  (locked_flag, prefix, (- num)%Z).

Definition sorted_tickets (locked : gset string) (l : list Ticket) : list Ticket :=
  Py.sorted tuple_ltb (sort_key locked) l.

Definition display_key (locked : gset string) (ticket : Ticket) : string :=
  if bool_decide (key ticket ∈ locked) && negb (Py.endswith_char "*" (key ticket))
  then key ticket +:+ "*"
  else key ticket.

Definition display_rows (locked : gset string) (l : list Ticket) : list string :=
  display_key locked <$> sorted_tickets locked l.

Definition set_tickets (l : list Ticket) (st : JiraUI) : JiraUI :=
  {| current_page := current_page st; tickets := l; jira := jira st;
     locked_tickets := locked_tickets st; ticket_list := ticket_list st;
     text_display := text_display st |}.

Definition set_jira (b : bool) (st : JiraUI) : JiraUI :=
  {| current_page := current_page st; tickets := tickets st; jira := b;
     locked_tickets := locked_tickets st; ticket_list := ticket_list st;
     text_display := text_display st |}.

Definition set_current_page (p : Z) (st : JiraUI) : JiraUI :=
  {| current_page := p; tickets := tickets st; jira := jira st;
     locked_tickets := locked_tickets st; ticket_list := ticket_list st;
     text_display := text_display st |}.

Definition set_locked_tickets (s : gset string) (st : JiraUI) : JiraUI :=
  {| current_page := current_page st; tickets := tickets st; jira := jira st;
     locked_tickets := s; ticket_list := ticket_list st;
     text_display := text_display st |}.

Definition set_text_display (d : list (string * Tag)) (st : JiraUI) : JiraUI :=
  {| current_page := current_page st; tickets := tickets st; jira := jira st;
     locked_tickets := locked_tickets st; ticket_list := ticket_list st;
     text_display := d |}.

Definition update_ticket_list_display (st : JiraUI) : JiraUI :=
  {| current_page := current_page st; tickets := tickets st; jira := jira st;
     locked_tickets := locked_tickets st;
     ticket_list := display_rows (locked_tickets st) (tickets st);
     text_display := text_display st |}.

(** ** Remote ticket gateway *)

Definition connect_jira (r : Remote) : bool * list Msg :=
  match connect r with
  | Ok _ => (true, [])
  | Raise e => (false, [showerror "Connection Error" ("Unable to connect to JIRA: " +:+ e)])
  end.

Definition get_recent_tickets (r : Remote) (start_at max_results : Z)
  : list Ticket * list Msg :=
  match search_issues r start_at max_results with
  | Ok issues => (issues, [])
  | Raise e => ([], [showerror "Error" ("Failed to retrieve tickets: " +:+ e)])
  end.

(** [re.findall(r'[A-Za-z]+-\d+', s)].  A match at a position is the
    maximal run of letters there, a dash, and the maximal run of digits: a
    shorter run of letters is followed by a letter, not by the dash.  After a
    match the scan resumes behind it, otherwise one character further. *)
Fixpoint span (p : ascii -> bool) (s : string) : string * string :=
  match s with
  | String c s' =>
      if p c then let '(a, b) := span p s' in (String c a, b) else (EmptyString, s)
  | EmptyString => (EmptyString, EmptyString)
  end.

Definition match_key (s : string) : option string :=
  let '(letters, r1) := span Py.is_letter s in
  match letters, r1 with
  | String _ _, String c r2 =>
      if Ascii.eqb c "-" then
        match span Py.is_digit r2 with
        | (String _ _ as ds, _) => Some (letters +:+ "-" +:+ ds)
        | _ => None
        end
      else None
  | _, _ => None
  end.

Fixpoint findall_keys (skip : nat) (s : string) : list string :=
  match s with
  | EmptyString => []
  | String _ s' =>
      match skip with
      | S n => findall_keys n s'
      | O =>
          match match_key s with
          | Some m => m :: findall_keys (String.length m - 1) s'
          | None => findall_keys 0 s'
          end
      end
  end.

Definition search_tickets (r : Remote) (search_input : string) : list Ticket :=
  let ticket_keys := findall_keys 0 search_input in
  fold_left (fun results k =>
               match issue r k with
               | Ok i => results ++ [i]
               | Raise _ => results
               end) ticket_keys [].

(** ** Ticket set manager *)

(** [JiraUI.__init__], given the locked set read from the configuration
    file: a dummy ticket for every locked key not yet in the list. *)
Definition init_tickets_in (order : list string) : list Ticket :=
  fold_left (fun acc k =>
               if existsb (fun ticket => String.eqb (key ticket) k) acc then acc
               else acc ++ [dummy k]) order [].

(** Startup when the loop over the locked set meets its keys in [order]:
    Python walks a set in an order of its own, which may differ from one run
    to the next. *)
Definition init_in (order : list string) (locked : gset string) : JiraUI :=
  let st := {| current_page := 1; tickets := init_tickets_in order; jira := false;
               locked_tickets := locked; ticket_list := []; text_display := [] |} in
  if bool_decide (locked = ∅) then st else update_ticket_list_display st.

(** Startup with the keys met in the order of [elements]. *)
Definition init_tickets (locked : gset string) : list Ticket :=
  init_tickets_in (elements locked).

Definition init (locked : gset string) : JiraUI := init_in (elements locked) locked.

Definition keys_of (l : list Ticket) : gset string := list_to_set (key <$> l).

(** The loop of [fetch_tickets]: [existing_keys] is computed once, before
    the loop. *)
Definition append_new (existing_keys : gset string) (new_tickets base : list Ticket)
  : list Ticket :=
  fold_left (fun acc ticket =>
               if bool_decide (key ticket ∈ existing_keys) then acc
               else acc ++ [ticket]) new_tickets base.

Definition fetch_tickets (r : Remote) (st : JiraUI) : JiraUI * list Msg :=
  let '(ok, m1) := connect_jira r in
  let st := set_jira ok st in
  if negb ok then (st, m1)
  else
    let start_at := ((current_page st - 1) * 10)%Z in
    let '(new_tickets, m2) := get_recent_tickets r start_at 10 in
    let st :=
      if Z.eqb (current_page st) 1 then
        let locked_list :=
          filter (fun ticket => key ticket ∈ locked_tickets st) (tickets st) in
        set_tickets locked_list st
      else st in
    let '(st, m3) :=
      match new_tickets with
      | _ :: _ =>
          let existing_keys := keys_of (tickets st) in
          let st := set_tickets (append_new existing_keys new_tickets (tickets st)) st in
          (set_current_page (current_page st + 1) st, [])
      | [] => (st, [showinfo "Info" "No more tickets available."])
      end in
    (update_ticket_list_display st, m1 ++ m2 ++ m3).

(** The merge of [search_ticket_action]. *)
Definition locked_dict (locked : gset string) (l : list Ticket) : list (string * Ticket) :=
  fold_left (fun d ticket => Py.dict_set (key ticket) ticket d)
            (filter (fun ticket => key ticket ∈ locked) l) [].

Definition merge_results (locked : gset string) (l results : list Ticket) : list Ticket :=
  let d := fold_left (fun d ticket => Py.dict_set (key ticket) ticket d)
                     results (locked_dict locked l) in
  let merged := Py.dict_values d in
  let non_locked := filter (fun ticket => key ticket ∉ locked) results in
  let merged_keys := keys_of merged in
  fold_left (fun acc ticket =>
               if bool_decide (key ticket ∈ merged_keys) then acc
               else acc ++ [ticket]) non_locked merged.

Definition found_text (n : nat) : string := "Found " +:+ pretty n +:+ " ticket(s)." +:+ String "010" "".

Definition search_ticket_action (r : Remote) (entry_search : string) (st : JiraUI)
  : JiraUI * list Msg :=
  let '(st, ok, m1) :=
    if jira st then (st, true, [])
    else let '(ok, m) := connect_jira r in (set_jira ok st, ok, m) in
  if negb ok then (st, m1)
  else
    let search_input := Py.strip entry_search in
    match search_input with
    | EmptyString =>
        (st, m1 ++ [showwarning "Warning" "Please enter ticket number(s) to search."])
    | _ =>
        match search_tickets r search_input with
        | [] => (st, m1 ++ [showinfo "Info" "No tickets found matching the search criteria."])
        | results =>
            let st := set_tickets (merge_results (locked_tickets st) (tickets st) results) st in
            let st := update_ticket_list_display st in
            (set_text_display [(found_text (length (tickets st)), header)] st, m1)
        end
    end.

(** [lock_selected_tickets]: the selected rows are read from the list box
    ([Listbox.get] answers the empty string outside the rows). *)
Definition toggle (locked : gset string) (ticket_key : string) : gset string :=
  if bool_decide (ticket_key ∈ locked) then locked ∖ {[ticket_key]}
  else locked ∪ {[ticket_key]}.

Definition lock_selected_tickets (selected_indices : list nat) (st : JiraUI)
  : JiraUI * list Msg :=
  match selected_indices with
  | [] => (st, [showwarning "Warning" "Please select at least one ticket to lock/unlock."])
  | _ =>
      let locked :=
        fold_left (fun locked index =>
                     let ticket_display := default EmptyString (ticket_list st !! index) in
                     toggle locked (Py.rstrip_char "*" ticket_display))
                  selected_indices (locked_tickets st) in
      (update_ticket_list_display (set_locked_tickets locked st), [])
  end.

(** ** Identity resolver *)

(** The module-level [user_cache], together with the record of the
    [jira.user] requests sent so far (oldest first). *)
Record World := {
  user_cache : gmap string string;
  user_calls : list string
}.

Definition get_display_name (r : Remote) (account_id : string) (w : World)
  : string * World :=
  match user_cache w !! account_id with
  | Some cached => (cached, w)
  | None =>
      let w := {| user_cache := user_cache w;
                  user_calls := user_calls w ++ [account_id] |} in
      match user r account_id with
      | Ok user_obj =>
          let name := default account_id (displayName user_obj) in
          (name, {| user_cache := <[account_id := name]> (user_cache w);
                    user_calls := user_calls w |})
      | Raise _ => ("Unknown User", w)
      end
  end.

(** ** Mention rewriter *)

(** A match of [\[~accountid:([^\]]+)\]] at the head of [s]: the account id
    and what follows the closing bracket. *)
Definition not_bracket (c : ascii) : bool := negb (Ascii.eqb c "]").

Definition match_mention (s : string) : option (string * string) :=
  match Py.drop_prefix "[~accountid:" s with
  | Some r =>
      match span not_bracket r with
      | (String _ _ as id, String _ rest) => Some (id, rest)
      | _ => None
      end
  | None => None
  end.

(** [re.sub] with the replacement function called on each match from left
    to right; [skip] counts the characters of a match still to pass. *)
Fixpoint sub_mentions (r : Remote) (skip : nat) (s : string) (w : World)
  : string * World :=
  match s with
  | EmptyString => (EmptyString, w)
  | String c s' =>
      match skip with
      | S n => sub_mentions r n s' w
      | O =>
          match match_mention s with
          | Some (id, _) =>
              let '(name, w) := get_display_name r id w in
              let '(out, w) := sub_mentions r (12 + String.length id) s' w in
              ("@" +:+ name +:+ out, w)
          | None =>
              let '(out, w) := sub_mentions r 0 s' w in
              (String c out, w)
          end
      end
  end.

Definition resolve_mentions (r : Remote) (text : string) (w : World)
  : string * World :=
  match text with
  | EmptyString => (text, w)
  | _ => sub_mentions r 0 text w
  end.

(** ** Conversation assembler *)

(** The text of the [AttributeError] Python raises for a missing attribute
    of an object of the class [cls] that does not define its own. *)
Definition attribute_error (cls attr : string) : string :=
  "'" +:+ cls +:+ "' object has no attribute '" +:+ attr +:+ "'".

Definition newline : string := String "010" EmptyString.

Definition comment_author (r : Remote) (c : Comment) : Res string :=
  match displayName (author c) with
  | Some d => Ok d
  | None =>
      match name (author c) with
      | Some n => Ok n
      | None => Raise (missing_attribute r "name")
      end
  end.

Definition comment_date (c : Comment) : string :=
  hd EmptyString (Py.split "T" (created c)).

Definition comment_entry (date author body : string) : string :=
  date +:+ " - " +:+ author +:+ " commented:" +:+ newline +:+ body +:+ newline +:+ newline.

(** The [for comment in sorted_comments] loop, [conv] being the text so far. *)
Fixpoint conversation_loop (r : Remote) (cs : list Comment) (conv : string) (w : World)
  : Res string * World :=
  match cs with
  | [] => (Ok conv, w)
  | comment :: cs' =>
      let date := comment_date comment in
      match comment_author r comment with
      | Raise e => (Raise e, w)
      | Ok author =>
          let body := Py.strip (body comment) in
          let '(body, w) := resolve_mentions r body w in
          conversation_loop r cs' (conv +:+ comment_entry date author body) w
      end
  end.

Definition failed_comments (ticket_key e : string) : string :=
  "Failed to retrieve comments for Ticket " +:+ ticket_key +:+ ": " +:+ e.

Definition get_ticket_conversation (r : Remote) (ticket_key : string) (w : World)
  : string * World :=
  match issue r ticket_key with
  | Raise e => (failed_comments ticket_key e, w)
  | Ok i =>
      match fields i with
      | None => (failed_comments ticket_key (missing_attribute r "fields"), w)
      | Some f =>
          let comments := default [] (comments f) in
          let sorted_comments := Py.sorted String.ltb created comments in
          match conversation_loop r sorted_comments EmptyString w with
          | (Ok EmptyString, w) => ("No Comments", w)
          | (Ok conv, w) => (conv, w)
          | (Raise e, w) => (failed_comments ticket_key e, w)
          end
      end
  end.

(** ** Selecting a row *)

(** The [for i, t in enumerate(self.tickets)] loop of [on_ticket_select]:
    the first ticket with the key of [ticket] is replaced. *)
Fixpoint replace_first (ticket : Ticket) (l : list Ticket) : list Ticket :=
  match l with
  | [] => []
  | t :: l' =>
      if String.eqb (key t) (key ticket) then ticket :: l'
      else t :: replace_first ticket l'
  end.

(** What [on_ticket_select] does before it starts the background thread:
    the new state, the messages, and the ticket handed to [fetch_details]
    when the thread is started.  [selection] is [curselection()].  An index
    outside [self.tickets] raises [IndexError] out of the handler, which
    leaves the state as it is. *)
Definition on_ticket_select (r : Remote) (selection : list nat) (st : JiraUI)
  : JiraUI * list Msg * option Ticket :=
  match tickets st, selection with
  | [], _ => (st, [], None)
  | _, [] => (st, [], None)
  | _, index :: _ =>
      match tickets st !! index with
      | None => (st, [], None)
      | Some ticket =>
          let '(st, ok, m1) :=
            if bool_decide (key ticket ∈ locked_tickets st) then
              let '(ok, m) := connect_jira r in
              (set_jira ok st, ok,
               if ok then m
               else m ++ [showerror "Error"
                            ("Unable to connect to JIRA, cannot load ticket " +:+ key ticket)])
            else (st, true, []) in
          if negb ok then (st, m1, None)
          else
            let loading := set_text_display [("Loading, please wait...", normal)] in
            match fields ticket with
            | Some _ => (loading st, m1, Some ticket)
            | None =>
                let failed e :=
                  (st, m1 ++ [showerror "Error"
                                ("Failed to load ticket " +:+ key ticket +:+ ": " +:+ e)],
                   None) in
                if jira st then
                  match issue r (key ticket) with
                  | Ok ticket' =>
                      (loading (set_tickets (replace_first ticket' (tickets st)) st),
                       m1, Some ticket')
                  | Raise e => failed e
                  end
                else failed (attribute_error "NoneType" "issue")
            end
      end
  end.

(** The body of the background thread, [fetch_details], and the call of
    [update_ticket_details] it schedules. *)
Definition fetch_details (r : Remote) (ticket : Ticket) (w : World)
  : Res (string * string * string * string) * World :=
  match fields ticket with
  | None => (Raise (missing_attribute r "fields"), w)
  | Some f =>
      let ticket_id := key ticket in
      let title := summary f in
      let description :=
        match description f with
        | Some (String _ _ as d) => d
        | _ => "No Description"
        end in
      let '(description, w) := resolve_mentions r description w in
      let '(conversation, w) := get_ticket_conversation r (key ticket) w in
      (Ok (ticket_id, title, description, conversation), w)
  end.

Definition update_ticket_details (d : string * string * string * string) (st : JiraUI)
  : JiraUI :=
  let '(ticket_id, title, description, conversation) := d in
  set_text_display
    [("Ticket" +:+ newline, header); (ticket_id +:+ newline +:+ newline, normal);
     ("Title" +:+ newline, header); (title +:+ newline +:+ newline, normal);
     ("Description" +:+ newline, header); (description +:+ newline +:+ newline, normal);
     ("Full Comment Conversation" +:+ newline, header); (conversation, normal)] st.

(** ** Sequences of user actions *)

Inductive Op : Type :=
| op_fetch (r : Remote)
| op_search (r : Remote) (entry_search : string)
| op_lock (selected_indices : list nat).

Definition step (o : Op) (st : JiraUI) : JiraUI :=
  match o with
  | op_fetch r => fst (fetch_tickets r st)
  | op_search r s => fst (search_ticket_action r s st)
  | op_lock sel => fst (lock_selected_tickets sel st)
  end.

Definition run (ops : list Op) (st : JiraUI) : JiraUI := fold_left (fun st o => step o st) ops st.

(** ** Vocabulary of the properties *)

Definition str_lt (a b : string) : Prop := String.ltb a b = true.
Definition str_le (a b : string) : Prop := String.ltb b a = false.

(** [a] may stand before [b] in [sorted(l, key=f)]: the key of [b] is not
    smaller than the key of [a]. *)
Definition key_le {A K : Type} (ltb : K -> K -> bool) (f : A -> K) (a b : A) : Prop :=
  ltb (f b) (f a) = false.

(** The prefix and the number [sort_key] reads off a ticket key. *)
Definition key_prefix (ticket : Ticket) : string := snd (fst (sort_key ∅ ticket)).
Definition key_number (ticket : Ticket) : Z := (- snd (sort_key ∅ ticket))%Z.

(** Locked before unlocked; then by prefix; then the larger number first. *)
Definition display_before (locked : gset string) (a b : Ticket) : Prop :=
  (key a ∈ locked /\ key b ∉ locked) \/
  ((key a ∈ locked <-> key b ∈ locked) /\
   (str_lt (key_prefix a) (key_prefix b) \/
    (key_prefix a = key_prefix b /\ (key_number b <= key_number a)%Z))).

Definition tuple_le (a b : Z * string * Z) : Prop :=
  let '(f1, p1, n1) := a in
  let '(f2, p2, n2) := b in
  (f1 < f2)%Z \/ (f1 = f2 /\ (str_lt p1 p2 \/ (p1 = p2 /\ (n1 <= n2)%Z))).

(** A ticket as the remote service lists it, with the key for a summary. *)
Definition tk (k : string) : Ticket :=
  {| key := k;
     fields := Some {| summary := k; description := None; comments := None |} |}.

(** A remote service that lists [page] and knows the issues [known] and
    the users [users]. *)
Definition remote_full (page : Res (list Ticket)) (known : list Ticket)
    (users : list (string * User)) : Remote :=
  {| connect := Ok (); search_issues := fun _ _ => page;
     issue := fun k =>
       match List.find (fun ticket => String.eqb (key ticket) k) known with
       | Some ticket => Ok ticket
       | None => Raise "Issue Does Not Exist"
       end;
     user := fun account_id =>
       match Py.dict_get account_id users with
       | Some user_obj => Ok user_obj
       | None => Raise "User Does Not Exist"
       end;
     missing_attribute := attribute_error "Resource" |}.

Definition remote_with (page : Res (list Ticket)) (known : list Ticket) : Remote :=
  remote_full page known [].

(** A remote service that knows the user u1, Alice. *)
Definition remote_team : Remote :=
  remote_full (Ok []) [] [("u1", {| displayName := Some "Alice"; name := None |})].

Definition remote_listing (page : Res (list Ticket)) : Remote := remote_with page [].

(** The collection [fetch_tickets] merges a page into: on the first page
    only the locked tickets are kept. *)
Definition fetch_base (st : JiraUI) : list Ticket :=
  if Z.eqb (current_page st) 1
  then filter (fun ticket => key ticket ∈ locked_tickets st) (tickets st)
  else tickets st.

(** The offset [fetch_tickets] asks the remote listing for. *)
Definition page_cursor (st : JiraUI) : Z := ((current_page st - 1) * 10)%Z.

(** A list of keys without its repetitions, each key where it first stood. *)
Fixpoint dedup_first (l : list string) : list string :=
  match l with
  | [] => []
  | x :: l' => x :: filter (fun y => y ≠ x) (dedup_first l')
  end.

(** The last ticket of [l] with key [k]. *)
Definition find_last (k : string) (l : list Ticket) : option Ticket :=
  fold_left (fun acc ticket => if String.eqb (key ticket) k then Some ticket else acc) l None.

(** No page the remote service lists during [ops] shows a key twice. *)
Definition distinct_page (r : Remote) : Prop :=
  forall start_at max_results page,
    search_issues r start_at max_results = Ok page -> NoDup (key <$> page).

Definition distinct_pages (ops : list Op) : Prop :=
  Forall (fun o => match o with op_fetch r => distinct_page r | _ => True end) ops.

(** Fetches and searches, the actions that do not touch the locked set. *)
Definition is_browse (o : Op) : Prop :=
  match o with
  | op_fetch _ | op_search _ _ => True
  | op_lock _ => False
  end.

(** The dictionary [search_ticket_action] builds: the tickets of [l] entered
    one after the other under their keys. *)
Definition upsert_all (l : list Ticket) (d : list (string * Ticket)) : list (string * Ticket) :=
  fold_left (fun d ticket => Py.dict_set (key ticket) ticket d) l d.










(** A comment by an author with a display name. *)
Definition comment_by (when who text : string) : Comment :=
  {| created := when; author := {| displayName := Some who; name := None |};
     body := text |}.

(** The issue A-1 with three comments, stored out of order. *)
Definition issue_a1 : Ticket :=
  {| key := "A-1";
     fields := Some {| summary := "Printer on fire"; description := None;
                       comments := Some [comment_by "2024-03-03T09:00:00" "Carol" "third";
                                         comment_by "2024-03-01T09:00:00" "Alice" " first ";
                                         comment_by "2024-03-02T09:00:00" "Bob"
                                                    "ask [~accountid:u1]"] |} |}.

(** ** Opening, exporting, and the locked set in the configuration file *)

(** [open_selected_tickets]: the addresses handed to the web browser, in the
    order of the selection.  [entry_url] is the text of the URL field. *)
Definition open_selected_tickets (entry_url : string) (selected_indices : list nat)
    (st : JiraUI) : list string * list Msg :=
  match tickets st, selected_indices with
  | [], _ => ([], [showwarning "Warning" "No tickets available to open."])
  | _, [] => ([], [showwarning "Warning" "Please select at least one ticket to open."])
  | _, _ =>
      let base_url := Py.rstrip_char "/" (Py.strip entry_url) in
      ((fun index =>
          let ticket_display := default EmptyString (ticket_list st !! index) in
          let ticket_key := Py.rstrip_char "*" ticket_display in
          base_url +:+ "/browse/" +:+ ticket_key) <$> selected_indices, [])
  end.

(** [export_selected_ticket_list]: the name of the file and the text written
    to it.  [time_str] and [date_str] are the two renderings of the clock;
    [written] is the outcome of opening and writing the file. *)
Definition export_selected_ticket_list (time_str date_str : string) (written : Res unit)
    (selected_indices : list nat) (st : JiraUI) : option (string * string) * list Msg :=
  match selected_indices with
  | [] => (None, [showwarning "Warning" "Please select at least one ticket to export."])
  | _ =>
      let num_tickets := length selected_indices in
      let filename := "current-" +:+ time_str +:+ "_" +:+ date_str +:+ "_"
                      +:+ pretty num_tickets +:+ "_tickets.txt" in
      let lines :=
        (fun index => default EmptyString (ticket_list st !! index)) <$> selected_indices in
      match written with
      | Ok _ =>
          (Some (filename, foldr (fun line text => line +:+ newline +:+ text) EmptyString lines),
           [showinfo "Export" ("Exported selected tickets to " +:+ filename)])
      | Raise e =>
          (None, [showerror "Export Error" ("Failed to export ticket list: " +:+ e)])
      end
  end.

(** [sep.join(l)] *)
Fixpoint str_join (sep : string) (l : list string) : string :=
  match l with
  | [] => EmptyString
  | [x] => x
  | x :: l' => x +:+ sep +:+ str_join sep l'
  end.

(** [value.replace('%%', '')] *)
Fixpoint remove_escaped (s : string) : string :=
  match s with
  | EmptyString => EmptyString
  | String c s' =>
      match s' with
      | String c' rest =>
          if Ascii.eqb c "%" && Ascii.eqb c' "%" then remove_escaped rest
          else String c (remove_escaped s')
      | EmptyString => String c EmptyString
      end
  end.

(** A match of the pattern [%\(([^)]+)\)s] at the head of [s]: its length. *)
Definition match_reference (s : string) : option nat :=
  match s with
  | String c1 (String c2 t) =>
      if Ascii.eqb c1 "%" && Ascii.eqb c2 "(" then
        match span (fun c => negb (Ascii.eqb c ")")) t with
        | (String _ _ as option_name, String c3 (String c4 _)) =>
            if Ascii.eqb c3 ")" && Ascii.eqb c4 "s"
            then Some (4 + String.length option_name) else None
        | _ => None
        end
      else None
  | _ => None
  end.

(** [_KEYCRE.sub('', s)]: every match dropped, left to right; [skip] is
    what is left of the match being passed. *)
Fixpoint remove_references (skip : nat) (s : string) : string :=
  match s with
  | EmptyString => EmptyString
  | String c s' =>
      match skip with
      | S n => remove_references n s'
      | O =>
          match match_reference s with
          | Some len => remove_references (len - 1) s'
          | None => String c (remove_references 0 s')
          end
      end
  end.

Fixpoint has_percent (s : string) : bool :=
  match s with
  | EmptyString => false
  | String c s' => Ascii.eqb c "%" || has_percent s'
  end.

(** [BasicInterpolation.before_set], which [ConfigParser.set] calls on the
    value: [None] stands for the [ValueError] raised for a percent sign that
    is neither doubled nor the start of a reference. *)
Definition before_set (value : string) : option string :=
  if has_percent (remove_references 0 (remove_escaped value)) then None else Some value.

(** [save_locked_tickets]: the value stored under LOCKED/tickets, or [None]
    for the [ValueError] out of [config.set], in which case no file is
    written. *)
Definition save_locked_tickets (locked_set : gset string) : option string :=
  before_set (str_join "," (Py.sorted String.ltb (fun k => k) (elements locked_set))).

(** [load_locked_tickets], given the value found under LOCKED/tickets
    ([None] when the file, the section or the option is missing). *)
Definition load_locked_tickets (tickets_option : option string) : gset string :=
  match tickets_option with
  | Some (String _ _ as tickets_str) =>
      list_to_set (filter (fun ticket => ticket ≠ EmptyString)
                          (Py.strip <$> Py.split "," tickets_str))
  | _ => ∅
  end.

(** ** Sessions with selections *)

Inductive Action : Type :=
| act_op (o : Op)
| act_select (r : Remote) (selection : list nat).

Definition perform (a : Action) (st : JiraUI) : JiraUI :=
  match a with
  | act_op o => step o st
  | act_select r selection => fst (fst (on_ticket_select r selection st))
  end.

Definition session (acts : list Action) (st : JiraUI) : JiraUI :=
  fold_left (fun st a => perform a st) acts st.

(** The list box shows the collection. *)
Definition in_sync (st : JiraUI) : Prop :=
  ticket_list st = display_rows (locked_tickets st) (tickets st).

(** No listing of the remote service during [acts] shows a key twice. *)
Definition distinct_listings (acts : list Action) : Prop :=
  Forall (fun a => match a with act_op (op_fetch r) => distinct_page r | _ => True end) acts.

(** The key of the ticket shown in row [index]. *)
Definition row_key (st : JiraUI) (index : nat) : string :=
  default EmptyString
    (key <$> sorted_tickets (locked_tickets st) (tickets st) !! index).

Definition no_star (k : string) : Prop := Py.endswith_char "*" k = false.

Fixpoint all_chars (p : ascii -> bool) (s : string) : bool :=
  match s with
  | EmptyString => true
  | String c s' => p c && all_chars p s'
  end.

(** A key as [search_tickets] extracts it: letters, a dash, digits. *)
Definition ticket_key_shape (m : string) : Prop :=
  exists letters ds,
    m = letters +:+ "-" +:+ ds /\ letters <> EmptyString /\ ds <> EmptyString /\
    all_chars Py.is_letter letters = true /\ all_chars Py.is_digit ds = true.

(** The issue the remote service has for a key, if the lookup succeeds. *)
Definition lookup_issue (r : Remote) (k : string) : option Ticket :=
  match issue r k with
  | Ok i => Some i
  | Raise _ => None
  end.

(** [w'] comes after [w]: every cached name is still cached, and the
    requests added are for ids that were not cached in [w]. *)
Definition extends (w w' : World) : Prop :=
  (forall account_id cached,
     user_cache w !! account_id = Some cached ->
     user_cache w' !! account_id = Some cached) /\
  exists new, user_calls w' = user_calls w ++ new /\
              Forall (fun account_id => user_cache w !! account_id = None) new.

Definition no_comma (c : ascii) : bool := negb (Ascii.eqb c ",").

(** A key as [load_locked_tickets] yields it: not empty, no comma, no blank
    at either end. *)
Definition trimmed_key (k : string) : Prop :=
  k <> EmptyString /\ all_chars no_comma k = true /\ Py.strip k = k.

(** A character that the configuration file hands back as it was stored,
    whatever the encoding of the platform: in ASCII, no percent sign, which
    [ConfigParser] refuses or rewrites, and no line break. *)
Definition plain_char (c : ascii) : bool :=
  Nat.ltb (Py.code c) 128
  && negb (Ascii.eqb c "%") && negb (Ascii.eqb c "010") && negb (Ascii.eqb c "013").

(** A key that survives being written to and read from the configuration. *)
Definition storable (k : string) : Prop :=
  trimmed_key k /\ all_chars plain_char k = true.

(** * Properties *)

(** ** Reading a number *)

(** [int] passes over the blanks of its own at either end and fails on the
    separators 28 to 31 that [str.strip] removes. *)
Example int_blanks :
  Py.int " 12 " = Some 12%Z /\
  Py.int (String (ascii_of_nat 160) "12" +:+ String (ascii_of_nat 133) "") = Some 12%Z /\
  Py.int (String (ascii_of_nat 28) "12") = None /\
  Py.int ("12" +:+ String (ascii_of_nat 31) "") = None /\
  Py.strip (String (ascii_of_nat 28) "12") = "12" /\
  Py.int "+1_0" = Some 10%Z /\ Py.int "-7" = Some (-7)%Z /\ Py.int "1__0" = None /\
  Py.int "" = None /\ Py.int "7a" = None.
Proof. vm_compute. repeat split. Qed.

(** [int] fails on a literal of more digits than the limit, leading zeros
    counted, sign and underscores not. *)
Lemma int_digit_limit (s : string) :
  Py.int_max_str_digits
  < Py.count_digits (Py.lstrip_by Py.is_int_space (Py.rstrip_by Py.is_int_space s)) ->
  Py.int s = None.
Proof.
  unfold Py.int.
  destruct (Py.lstrip_by Py.is_int_space (Py.rstrip_by Py.is_int_space s)) as [|c t];
    [reflexivity|].
  intros H. apply Nat.ltb_lt in H. now rewrite H.
Qed.

(** ** The order of strings *)

Lemma ascii_compare_lt_trans (a b c : ascii) :
  Ascii.compare a b = Lt -> Ascii.compare b c = Lt -> Ascii.compare a c = Lt.
Proof.
  unfold Ascii.compare. rewrite !N.compare_lt_iff. lia.
Qed.

Lemma ascii_compare_refl (a : ascii) : Ascii.compare a a = Eq.
Proof. unfold Ascii.compare. apply N.compare_refl. Qed.

Lemma string_compare_refl (a : string) : String.compare a a = Eq.
Proof.
  induction a as [|c a IH]; simpl; [reflexivity|].
  now rewrite ascii_compare_refl.
Qed.

Lemma string_compare_lt_trans (a b c : string) :
  String.compare a b = Lt -> String.compare b c = Lt -> String.compare a c = Lt.
Proof.
  revert b c. induction a as [|x a IH]; intros [|y b] [|z c]; simpl; try congruence.
  destruct (Ascii.compare x y) eqn:Hxy; try discriminate;
    destruct (Ascii.compare y z) eqn:Hyz; try discriminate; intros Hab Hbc.
  - apply Ascii.compare_eq_iff in Hxy, Hyz. subst.
    rewrite ascii_compare_refl. eauto.
  - apply Ascii.compare_eq_iff in Hxy. subst. now rewrite Hyz.
  - apply Ascii.compare_eq_iff in Hyz. subst. now rewrite Hxy.
  - now rewrite (ascii_compare_lt_trans x y z).
Qed.

Lemma str_lt_irrefl (a : string) : ~ str_lt a a.
Proof. unfold str_lt, String.ltb. now rewrite string_compare_refl. Qed.

Lemma str_lt_trans (a b c : string) : str_lt a b -> str_lt b c -> str_lt a c.
Proof.
  unfold str_lt, String.ltb. intros Hab Hbc.
  destruct (String.compare a b) eqn:H1; try discriminate.
  destruct (String.compare b c) eqn:H2; try discriminate.
  now rewrite (string_compare_lt_trans a b c).
Qed.

Lemma str_lt_asym (a b : string) : str_lt a b -> str_le a b.
Proof.
  unfold str_lt, str_le, String.ltb. rewrite (String.compare_antisym b a).
  destruct (String.compare a b); simpl; congruence.
Qed.

Lemma str_le_cases (a b : string) : str_le a b <-> str_lt a b \/ a = b.
Proof.
  unfold str_le, str_lt, String.ltb. rewrite (String.compare_antisym b a).
  destruct (String.compare a b) eqn:H; simpl.
  - apply String.compare_eq_iff in H. tauto.
  - tauto.
  - split; [discriminate|]. intros [?| ->]; [discriminate|].
    now rewrite string_compare_refl in H.
Qed.


(** ** [sorted] *)

Section SortedFacts.
Context {A K : Type} (ltb : K -> K -> bool) (f : A -> K).

Hypothesis ltb_asym : forall x y, ltb x y = true -> ltb y x = false.
Hypothesis le_trans :
  forall x y z, ltb y x = false -> ltb z y = false -> ltb z x = false.

Lemma insert_by_Permutation (x : A) (l : list A) :
  Permutation (x :: l) (Py.insert_by ltb f x l).
Proof using Type.
  induction l as [|y l IH]; simpl; [reflexivity|].
  destruct (ltb (f y) (f x)); [|reflexivity].
  rewrite perm_swap. now constructor.
Qed.

Lemma sorted_Permutation (l : list A) : Permutation l (Py.sorted ltb f l).
Proof using Type.
  induction l as [|x l IH]; simpl; [reflexivity|].
  rewrite <- insert_by_Permutation. now constructor.
Qed.

Lemma insert_by_StronglySorted (x : A) (l : list A) :
  StronglySorted (key_le ltb f) l -> StronglySorted (key_le ltb f) (Py.insert_by ltb f x l).
Proof using ltb_asym le_trans.
  induction 1 as [|y l Hl IH Hy]; simpl.
  - repeat constructor.
  - destruct (ltb (f y) (f x)) eqn:Hyx.
    + constructor; [exact IH|].
      rewrite <- insert_by_Permutation. constructor; [|exact Hy].
      now apply ltb_asym.
    + constructor; [now constructor|].
      constructor; [exact Hyx|].
      eapply Forall_impl; [exact Hy|].
      intros z Hz. unfold key_le in *. eauto.
Qed.

Lemma sorted_StronglySorted (l : list A) : StronglySorted (key_le ltb f) (Py.sorted ltb f l).
Proof using ltb_asym le_trans.
  induction l as [|x l IH]; simpl; [constructor|].
  now apply insert_by_StronglySorted.
Qed.
End SortedFacts.

(** ** The display order *)

Lemma tuple_ltb_false (a b : Z * string * Z) : tuple_ltb b a = false <-> tuple_le a b.
Proof.
  destruct a as [[f1 p1] n1], b as [[f2 p2] n2]. unfold tuple_ltb, tuple_le.
  destruct (Z.eqb_spec f2 f1) as [->|Hf].
  - destruct (String.eqb_spec p2 p1) as [->|Hp].
    + rewrite Z.ltb_ge. split; [tauto|].
      intros [?|[_ [H|[_ ?]]]]; [lia| |done]. now apply str_lt_irrefl in H.
    + fold (str_le p1 p2). rewrite str_le_cases. split.
      * intros [?|?]; [tauto|congruence].
      * intros [?|[_ [?|[? _]]]]; [lia|tauto|congruence].
  - rewrite Z.ltb_ge. split; [intros; left; lia|].
    intros [?|[? _]]; [lia|congruence].
Qed.

Lemma tuple_le_trans (a b c : Z * string * Z) : tuple_le a b -> tuple_le b c -> tuple_le a c.
Proof.
  destruct a as [[f1 p1] n1], b as [[f2 p2] n2], c as [[f3 p3] n3]. unfold tuple_le.
  intros [?|[-> H1]] [?|[-> H2]]; try (left; lia). right. split; [done|].
  destruct H1 as [?|[-> ?]], H2 as [?|[-> ?]]; eauto using str_lt_trans.
  right. split; [done|lia].
Qed.

Lemma tuple_ltb_asym (a b : Z * string * Z) : tuple_ltb a b = true -> tuple_ltb b a = false.
Proof.
  intros H. apply tuple_ltb_false.
  destruct (tuple_ltb b a) eqn:Hba; [|now apply tuple_ltb_false].
  destruct a as [[f1 p1] n1], b as [[f2 p2] n2]. unfold tuple_ltb, tuple_le in *.
  rewrite (Z.eqb_sym f2 f1) in Hba.
  destruct (Z.eqb_spec f1 f2) as [->|Hf]; [|lia].
  destruct (String.eqb_spec p1 p2) as [->|Hp].
  - rewrite String.eqb_refl in Hba. lia.
  - destruct (String.eqb_spec p2 p1); [congruence|].
    apply str_lt_asym in H. unfold str_le in H. congruence.
Qed.

Lemma sort_key_locked (locked : gset string) (ticket : Ticket) :
  sort_key locked ticket =
  (if decide (key ticket ∈ locked) then 0%Z else 1%Z, key_prefix ticket, (- key_number ticket)%Z).
Proof.
  unfold key_prefix, key_number, sort_key.
  destruct (Py.split "-" (key ticket)) as [|p [|n [|? ?]]]; simpl;
    try (f_equal; lia).
  destruct (Py.int n); simpl; f_equal; lia.
Qed.

Lemma key_le_display_before (locked : gset string) (a b : Ticket) :
  key_le tuple_ltb (sort_key locked) a b -> display_before locked a b.
Proof.
  unfold key_le. rewrite tuple_ltb_false, !sort_key_locked. unfold tuple_le, display_before.
  destruct (decide (key a ∈ locked)), (decide (key b ∈ locked)); intros [?|[? H]];
    try lia; try tauto.
  - right. split; [tauto|]. destruct H as [?|[? ?]]; [tauto|right; split; [done|lia]].
  - right. split; [tauto|]. destruct H as [?|[? ?]]; [tauto|right; split; [done|lia]].
Qed.

Lemma StronglySorted_mono {A : Type} (R S : A -> A -> Prop) (l : list A) :
  (forall a b, R a b -> S a b) -> StronglySorted R l -> StronglySorted S l.
Proof.
  intros HRS. induction 1 as [|a l Hl IH Ha]; constructor; [exact IH|].
  eapply Forall_impl; [exact Ha|]. auto.
Qed.

Lemma sorted_tickets_display_before (locked : gset string) (l : list Ticket) :
  StronglySorted (display_before locked) (sorted_tickets locked l).
Proof.
  apply (StronglySorted_mono (key_le tuple_ltb (sort_key locked))).
  - apply key_le_display_before.
  - apply sorted_StronglySorted.
    + apply tuple_ltb_asym.
    + intros x y z. rewrite !tuple_ltb_false. apply tuple_le_trans.
Qed.

Example key_prefix_number :
  key_prefix (tk "A-12") = "A" /\ key_number (tk "A-12") = 12%Z /\
  key_prefix (tk "A-1-2") = "A-1-2" /\ key_number (tk "A-1-2") = 0%Z /\
  key_prefix (tk "A-x") = "A-x" /\ key_number (tk "A-x") = 0%Z.
Proof. vm_compute. repeat split. Qed.

(** C4, as the claim states it for the example: the rows of the collection
    A-2 (locked), A-1, B-5, A-3 (locked) are not A-2*, A-3*, A-1, B-5. *)
Lemma display_order_example_differs :
  display_rows {["A-2"; "A-3"]} [tk "A-2"; tk "A-1"; tk "B-5"; tk "A-3"]
  <> ["A-2*"; "A-3*"; "A-1"; "B-5"].
Proof. vm_compute. discriminate. Qed.

(** C4, amended: the rows shown are the tickets of the collection, each once,
    with the locked ones first, then in the order of their prefixes, then the
    larger number first; the rows of the collection A-2 (locked), A-1, B-5,
    A-3 (locked) are A-3*, A-2*, A-1, B-5. *)
Theorem display_order (locked : gset string) (l : list Ticket) :
  display_rows locked l = (display_key locked <$> sorted_tickets locked l) /\
  Permutation l (sorted_tickets locked l) /\
  StronglySorted (display_before locked) (sorted_tickets locked l) /\
  display_rows {["A-2"; "A-3"]} [tk "A-2"; tk "A-1"; tk "B-5"; tk "A-3"]
  = ["A-3*"; "A-2*"; "A-1"; "B-5"].
Proof.
  split; [reflexivity|]. split; [apply sorted_Permutation|].
  split; [apply sorted_tickets_display_before|]. vm_compute. reflexivity.
Qed.

(** ** Selecting a row *)

(** C10, at the collection B-1, A-1 of a first page: row 0 shows A-1, and
    selecting row 0 hands B-1 to the loader, while locking row 0 locks A-1,
    the key read from the row. *)
Theorem select_row_loads_other_ticket :
  let r := remote_listing (Ok [tk "B-1"; tk "A-1"]) in
  let st := fst (fetch_tickets r (init ∅)) in
  key <$> tickets st = ["B-1"; "A-1"] /\
  ticket_list st = ["A-1"; "B-1"] /\
  Py.rstrip_char "*" <$> ticket_list st !! 0%nat = Some "A-1" /\
  key <$> snd (on_ticket_select r [0%nat] st) = Some "B-1" /\
  elements (locked_tickets (fst (lock_selected_tickets [0%nat] st))) = ["A-1"].
Proof. vm_compute. repeat split. Qed.

(** ** Fetching a page *)

Lemma append_new_filter (E : gset string) (new base : list Ticket) :
  append_new E new base = base ++ filter (fun ticket => key ticket ∉ E) new.
Proof.
  unfold append_new. revert base.
  induction new as [|t new IH]; intros base; simpl.
  - now rewrite app_nil_r.
  - rewrite IH. case_bool_decide as Ht.
    + now rewrite filter_cons_False by tauto.
    + rewrite filter_cons_True by done. now rewrite <- app_assoc.
Qed.

Lemma fetch_tickets_not_connected (r : Remote) (st : JiraUI) (e : string) :
  connect r = Raise e ->
  fetch_tickets r st =
  (set_jira false st, [showerror "Connection Error" ("Unable to connect to JIRA: " +:+ e)]).
Proof. intros H. unfold fetch_tickets, connect_jira. now rewrite H. Qed.

Lemma fetch_tickets_connected (r : Remote) (st : JiraUI) :
  connect r = Ok () ->
  let '(new_tickets, m2) := get_recent_tickets r (page_cursor st) 10 in
  let st' := fst (fetch_tickets r st) in
  tickets st' =
    fetch_base st ++ filter (fun ticket => key ticket ∉ keys_of (fetch_base st)) new_tickets /\
  locked_tickets st' = locked_tickets st /\
  current_page st' =
    match new_tickets with [] => current_page st | _ :: _ => (current_page st + 1)%Z end /\
  ticket_list st' = display_rows (locked_tickets st') (tickets st') /\
  snd (fetch_tickets r st) =
    m2 ++ match new_tickets with
          | [] => [showinfo "Info" "No more tickets available."]
          | _ :: _ => []
          end.
Proof.
  intros Hc. unfold fetch_tickets, connect_jira, page_cursor, fetch_base. rewrite Hc. simpl.
  destruct (get_recent_tickets r ((current_page st - 1) * 10) 10) as [new m2].
  destruct (Z.eqb (current_page st) 1); destruct new as [|t new]; simpl;
    rewrite ?append_new_filter, ?filter_nil, ?app_nil_r; repeat split.
  all: case_bool_decide;
    [now rewrite filter_cons_False by tauto
    |rewrite filter_cons_True by done; now rewrite <- app_assoc].
Qed.

(** ** Dictionaries and the search merge *)

Lemma dedup_first_filter (P : string -> Prop) `{!forall x, Decision (P x)} (l : list string) :
  filter P (dedup_first l) = dedup_first (filter P l).
Proof.
  induction l as [|x l IH]; [reflexivity|]. simpl.
  destruct (decide (P x)) as [Hx|Hx].
  - rewrite !filter_cons_True by done. simpl. rewrite <- IH.
    f_equal. rewrite !list_filter_filter. apply list_filter_iff. tauto.
  - rewrite !filter_cons_False by done. rewrite <- IH.
    rewrite list_filter_filter. apply list_filter_iff. intros y. split; [tauto|].
    intros Hy. split; [done|]. congruence.
Qed.

Lemma elem_of_dedup_first (x : string) (l : list string) : x ∈ dedup_first l <-> x ∈ l.
Proof.
  induction l as [|y l IH]; simpl; [reflexivity|].
  rewrite !elem_of_cons, list_elem_of_filter, IH.
  destruct (decide (x = y)); tauto.
Qed.

Lemma NoDup_dedup_first (l : list string) : NoDup (dedup_first l).
Proof.
  induction l as [|y l IH]; simpl; constructor.
  - rewrite list_elem_of_filter. tauto.
  - now apply NoDup_filter.
Qed.

Lemma dedup_first_NoDup (l : list string) : NoDup l -> dedup_first l = l.
Proof.
  induction 1 as [|x l Hx Hl IH]; simpl; [reflexivity|]. rewrite IH. f_equal.
  clear IH Hl. induction l as [|y l IH]; [reflexivity|].
  rewrite not_elem_of_cons in Hx. rewrite filter_cons_True by (intros Heq; destruct Hx; congruence).
  f_equal. tauto.
Qed.

Section DictFacts.
Context {V : Type}.
Implicit Types (d : list (string * V)) (k : string) (v : V).

Lemma dict_keys_set k v d :
  Py.dict_keys (Py.dict_set k v d) =
  if bool_decide (k ∈ Py.dict_keys d) then Py.dict_keys d else Py.dict_keys d ++ [k].
Proof.
  unfold Py.dict_keys. induction d as [|[k' v'] d IH]; [reflexivity|].
  cbn [Py.dict_set]. destruct (String.eqb_spec k' k) as [->|Hne].
  - rewrite bool_decide_eq_true_2; [done|]. rewrite fmap_cons. apply elem_of_cons; tauto.
  - rewrite !fmap_cons, IH. cbn [fst].
    destruct (decide (k ∈ d.*1)) as [Hin|Hin].
    + rewrite !bool_decide_eq_true_2; [done| |done]. apply elem_of_cons; tauto.
    + rewrite !bool_decide_eq_false_2; [done| |done].
      rewrite elem_of_cons. intros [?|?]; [congruence|tauto].
Qed.

Lemma dict_get_set k k' v d :
  Py.dict_get k (Py.dict_set k' v d) =
  if String.eqb k' k then Some v else Py.dict_get k d.
Proof.
  induction d as [|[k0 v0] d IH]; simpl; [reflexivity|].
  destruct (String.eqb_spec k0 k') as [->|Hne]; simpl.
  - destruct (String.eqb k' k); reflexivity.
  - rewrite IH. destruct (String.eqb_spec k0 k) as [->|?]; [|reflexivity].
    destruct (String.eqb_spec k' k); congruence.
Qed.

Lemma dict_get_elem_of k v d :
  NoDup (Py.dict_keys d) -> (k, v) ∈ d -> Py.dict_get k d = Some v.
Proof.
  unfold Py.dict_keys. induction d as [|[k0 v0] d IH]; simpl.
  - intros _ H. inversion H.
  - rewrite NoDup_cons, elem_of_cons. intros [Hk0 Hd] [Heq|Hin].
    + injection Heq as -> ->. now rewrite String.eqb_refl.
    + destruct (String.eqb_spec k0 k) as [->|?]; [|auto].
      exfalso. apply Hk0. apply list_elem_of_fmap. now exists (k, v).
Qed.
End DictFacts.

Lemma upsert_all_keys (l : list Ticket) (d : list (string * Ticket)) :
  Py.dict_keys (upsert_all l d) =
  Py.dict_keys d ++ dedup_first (filter (fun k => k ∉ Py.dict_keys d) (key <$> l)).
Proof.
  unfold upsert_all. revert d. induction l as [|t l IH]; intros d; simpl.
  - now rewrite app_nil_r.
  - rewrite IH, dict_keys_set. case_bool_decide as Ht.
    + now rewrite filter_cons_False by tauto.
    + rewrite filter_cons_True by done. simpl. rewrite <- app_assoc. simpl.
      do 2 f_equal. rewrite dedup_first_filter, list_filter_filter. f_equal.
      apply list_filter_iff. intros k. rewrite not_elem_of_app, not_elem_of_cons.
      split; [intros [? [? _]]|intros [? ?]]; repeat split; try done.
      apply not_elem_of_nil.
Qed.

Lemma upsert_all_get (k : string) (l : list Ticket) (d : list (string * Ticket)) :
  Py.dict_get k (upsert_all l d) =
  fold_left (fun acc ticket => if String.eqb (key ticket) k then Some ticket else acc)
            l (Py.dict_get k d).
Proof.
  unfold upsert_all. revert d. induction l as [|t l IH]; intros d; simpl; [reflexivity|].
  now rewrite IH, dict_get_set.
Qed.

Lemma upsert_all_keyed (l : list Ticket) (d : list (string * Ticket)) :
  Forall (fun kv => key (snd kv) = fst kv) d ->
  Forall (fun kv => key (snd kv) = fst kv) (upsert_all l d).
Proof.
  unfold upsert_all. revert d. induction l as [|t l IH]; intros d Hd; simpl; [exact Hd|].
  apply IH. clear IH. induction Hd as [|[k v] d Hkv Hd IH]; simpl.
  - now repeat constructor.
  - destruct (String.eqb_spec k (key t)) as [->|?]; constructor; auto.
Qed.

Lemma keyed_values_keys (d : list (string * Ticket)) :
  Forall (fun kv => key (snd kv) = fst kv) d ->
  key <$> Py.dict_values d = Py.dict_keys d.
Proof.
  unfold Py.dict_values, Py.dict_keys.
  induction 1 as [|[k v] d Hkv Hd IH]; [reflexivity|].
  rewrite !fmap_cons, IH. simpl in *. now rewrite Hkv.
Qed.

Lemma append_missing_none (S : gset string) (l acc : list Ticket) :
  (forall t, t ∈ l -> key t ∈ S) ->
  fold_left (fun acc ticket =>
               if bool_decide (key ticket ∈ S) then acc else acc ++ [ticket]) l acc = acc.
Proof.
  revert acc. induction l as [|t l IH]; intros acc Hl; simpl; [reflexivity|].
  rewrite bool_decide_eq_true_2 by (apply Hl; apply elem_of_cons; tauto).
  apply IH. intros t' Ht'. apply Hl. apply elem_of_cons. tauto.
Qed.

Lemma upsert_all_nil_keys (l : list Ticket) :
  Py.dict_keys (upsert_all l []) = dedup_first (key <$> l).
Proof.
  rewrite upsert_all_keys. simpl. f_equal.
  induction l as [|t l IH]; [reflexivity|].
  rewrite fmap_cons, filter_cons_True by apply not_elem_of_nil. now rewrite IH.
Qed.

Lemma upsert_all_app (a b : list Ticket) (d : list (string * Ticket)) :
  upsert_all (a ++ b) d = upsert_all b (upsert_all a d).
Proof. unfold upsert_all. apply fold_left_app. Qed.

Lemma merge_results_dict (locked : gset string) (l results : list Ticket) :
  merge_results locked l results =
  Py.dict_values
    (upsert_all (filter (fun ticket => key ticket ∈ locked) l ++ results) []).
Proof.
  rewrite upsert_all_app.
  set (d := upsert_all results (upsert_all (filter (fun ticket => key ticket ∈ locked) l) [])).
  change (merge_results locked l results) with
    (fold_left (fun acc ticket =>
                  if bool_decide (key ticket ∈ keys_of (Py.dict_values d)) then acc
                  else acc ++ [ticket])
               (filter (fun ticket => key ticket ∉ locked) results) (Py.dict_values d)).
  apply append_missing_none. intros t Ht.
  apply list_elem_of_filter in Ht as [_ Ht].
  unfold keys_of. rewrite elem_of_list_to_set, keyed_values_keys.
  - unfold d. rewrite upsert_all_keys. apply elem_of_app.
    destruct (decide (key t ∈ Py.dict_keys
                (upsert_all (filter (fun ticket => key ticket ∈ locked) l) [])));
      [tauto|right].
    apply elem_of_dedup_first, list_elem_of_filter. split; [done|].
    now apply list_elem_of_fmap_2.
  - do 2 apply upsert_all_keyed. constructor.
Qed.

Lemma merge_results_keys (locked : gset string) (l results : list Ticket) :
  key <$> merge_results locked l results =
  dedup_first (key <$> (filter (fun ticket => key ticket ∈ locked) l ++ results)).
Proof.
  rewrite merge_results_dict, keyed_values_keys by (apply upsert_all_keyed; constructor).
  apply upsert_all_nil_keys.
Qed.

Lemma merge_results_value (locked : gset string) (l results : list Ticket) (t : Ticket) :
  t ∈ merge_results locked l results ->
  find_last (key t) (filter (fun ticket => key ticket ∈ locked) l ++ results) = Some t.
Proof.
  rewrite merge_results_dict. unfold Py.dict_values. intros Ht.
  apply list_elem_of_fmap in Ht as [[k t'] [-> Hkt]]. simpl.
  set (ts := filter (fun ticket => key ticket ∈ locked) l ++ results) in *.
  assert (Hkeyed : Forall (fun kv => key (snd kv) = fst kv) (upsert_all ts []))
    by (apply upsert_all_keyed; constructor).
  rewrite Forall_forall in Hkeyed. pose proof (Hkeyed _ Hkt) as Hk. simpl in Hk. subst k.
  apply dict_get_elem_of in Hkt.
  - rewrite upsert_all_get in Hkt. exact Hkt.
  - rewrite upsert_all_nil_keys. apply NoDup_dedup_first.
Qed.

Lemma search_tickets_empty_input (r : Remote) : search_tickets r EmptyString = [].
Proof. reflexivity. Qed.

(** ** Searching *)

Lemma search_found (r : Remote) (input : string) (st : JiraUI) :
  jira st = true \/ connect r = Ok () ->
  search_tickets r (Py.strip input) <> [] ->
  let st' := fst (search_ticket_action r input st) in
  tickets st' =
    merge_results (locked_tickets st) (tickets st) (search_tickets r (Py.strip input)) /\
  locked_tickets st' = locked_tickets st /\
  current_page st' = current_page st /\
  ticket_list st' = display_rows (locked_tickets st') (tickets st') /\
  text_display st' = [(found_text (length (tickets st')), header)].
Proof.
  intros Hc Hres. unfold search_ticket_action, connect_jira.
  assert (Hin : Py.strip input <> EmptyString).
  { intros Heq. apply Hres. rewrite Heq. reflexivity. }
  destruct (jira st) eqn:Hj; [|destruct Hc as [?|Hc]; [discriminate|rewrite Hc]]; simpl;
    destruct (Py.strip input) as [|c s] eqn:Hs; try congruence;
    destruct (search_tickets r (String c s)) as [|t ts] eqn:Hr; try congruence;
    simpl; repeat split.
Qed.

Lemma search_nothing (r : Remote) (input : string) (st : JiraUI) :
  search_tickets r (Py.strip input) = [] ->
  let st' := fst (search_ticket_action r input st) in
  tickets st' = tickets st /\ locked_tickets st' = locked_tickets st /\
  current_page st' = current_page st /\ ticket_list st' = ticket_list st /\
  text_display st' = text_display st.
Proof.
  intros Hres. unfold search_ticket_action, connect_jira.
  destruct (jira st) eqn:Hj; [|destruct (connect r)]; simpl;
    rewrite ?Hres; destruct (Py.strip input); simpl; repeat split.
Qed.

Lemma search_not_connected (r : Remote) (input e : string) (st : JiraUI) :
  jira st = false -> connect r = Raise e ->
  search_ticket_action r input st =
  (set_jira false st, [showerror "Connection Error" ("Unable to connect to JIRA: " +:+ e)]).
Proof.
  intros Hj Hc. unfold search_ticket_action, connect_jira. now rewrite Hj, Hc.
Qed.

Lemma search_cases (r : Remote) (input : string) (st : JiraUI) :
  let st' := fst (search_ticket_action r input st) in
  locked_tickets st' = locked_tickets st /\ current_page st' = current_page st /\
  (tickets st' = tickets st \/
   exists results, tickets st' = merge_results (locked_tickets st) (tickets st) results).
Proof.
  unfold search_ticket_action, connect_jira.
  destruct (jira st); [|destruct (connect r)]; simpl;
    try (destruct (Py.strip input); [|destruct (search_tickets r _)]); simpl;
    repeat split; eauto.
Qed.

Lemma lock_selected_tickets_tickets (sel : list nat) (st : JiraUI) :
  let st' := fst (lock_selected_tickets sel st) in
  tickets st' = tickets st /\ current_page st' = current_page st.
Proof. destruct sel; simpl; split; reflexivity. Qed.

(** ** Distinct keys *)

Lemma fmap_filter_NoDup (P : Ticket -> Prop) `{!forall t, Decision (P t)} (l : list Ticket) :
  NoDup (key <$> l) -> NoDup (key <$> filter P l).
Proof.
  intros Hl. eapply sublist_NoDup; [exact Hl|]. apply fmap_sublist, sublist_filter.
Qed.

Lemma add_dummies_NoDup (ks : list string) (acc : list Ticket) :
  NoDup (key <$> acc) ->
  NoDup (key <$> fold_left (fun acc k =>
                              if existsb (fun ticket => String.eqb (key ticket) k) acc
                              then acc else acc ++ [dummy k]) ks acc).
Proof.
  revert acc. induction ks as [|k ks IH]; intros acc H; simpl; [exact H|].
  apply IH. destruct (existsb _ acc) eqn:Hex; [exact H|].
  rewrite fmap_app. apply NoDup_app. split; [exact H|]. split; [|repeat constructor; set_solver].
  intros x Hx Hk. apply list_elem_of_singleton in Hk. simpl in Hk. subst x.
  apply list_elem_of_fmap in Hx as [t [Hk Ht]].
  apply not_true_iff_false in Hex. apply Hex. apply existsb_exists.
  exists t. split; [now apply list_elem_of_In|]. rewrite Hk. apply String.eqb_refl.
Qed.

Lemma init_tickets_NoDup (locked : gset string) : NoDup (key <$> init_tickets locked).
Proof. apply add_dummies_NoDup. constructor. Qed.

Lemma fetch_tickets_NoDup (r : Remote) (st : JiraUI) :
  distinct_page r -> NoDup (key <$> tickets st) ->
  NoDup (key <$> tickets (fst (fetch_tickets r st))).
Proof.
  intros Hr Hst. destruct (connect r) as [[]|e] eqn:Hc.
  - pose proof (fetch_tickets_connected r st Hc) as H.
    unfold get_recent_tickets in H.
    destruct (search_issues r (page_cursor st) 10) as [page|e] eqn:Hp;
      destruct H as (-> & _).
    + rewrite fmap_app. apply NoDup_app. repeat split.
      * unfold fetch_base. destruct (Z.eqb _ _); [now apply fmap_filter_NoDup|done].
      * intros k Hk Hk'. apply list_elem_of_fmap in Hk' as [t [-> Ht]].
        apply list_elem_of_filter in Ht as [Ht _]. apply Ht.
        unfold keys_of. now apply elem_of_list_to_set.
      * apply fmap_filter_NoDup. eapply Hr, Hp.
    + rewrite filter_nil, app_nil_r.
      unfold fetch_base. destruct (Z.eqb _ _); [now apply fmap_filter_NoDup|done].
  - now rewrite (fetch_tickets_not_connected r st e Hc).
Qed.

Lemma search_NoDup (r : Remote) (input : string) (st : JiraUI) :
  NoDup (key <$> tickets st) ->
  NoDup (key <$> tickets (fst (search_ticket_action r input st))).
Proof.
  intros Hst. destruct (search_cases r input st) as (_ & _ & [->|[results ->]]); [done|].
  rewrite merge_results_keys. apply NoDup_dedup_first.
Qed.

(** With pages that list no key twice, the collection never holds two
    tickets with the same key. *)
Lemma run_keys_NoDup (ops : list Op) (st : JiraUI) :
  distinct_pages ops -> NoDup (key <$> tickets st) ->
  NoDup (key <$> tickets (run ops st)).
Proof.
  unfold run. revert st. induction ops as [|o ops IH]; intros st Hops Hst; [exact Hst|].
  apply Forall_cons in Hops as [Ho Hops]. simpl. apply IH; [exact Hops|].
  destruct o as [r|r input|sel]; simpl.
  - now apply fetch_tickets_NoDup.
  - now apply search_NoDup.
  - now destruct (lock_selected_tickets_tickets sel st) as [-> _].
Qed.

Lemma session_keys_NoDup (locked : gset string) (ops : list Op) :
  distinct_pages ops -> NoDup (key <$> tickets (run ops (init locked))).
Proof.
  intros Hops. apply run_keys_NoDup; [exact Hops|].
  unfold init, init_in. case_bool_decide; apply init_tickets_NoDup.
Qed.

(** ** Locked tickets stay *)

Lemma fetch_tickets_locked (r : Remote) (st : JiraUI) :
  locked_tickets (fst (fetch_tickets r st)) = locked_tickets st.
Proof.
  destruct (connect r) as [[]|e] eqn:Hc.
  - pose proof (fetch_tickets_connected r st Hc) as H.
    destruct (get_recent_tickets r (page_cursor st) 10). now destruct H as (_ & -> & _).
  - now rewrite (fetch_tickets_not_connected r st e Hc).
Qed.

Lemma fetch_base_keeps_locked (st : JiraUI) (k : string) :
  k ∈ locked_tickets st -> k ∈ key <$> tickets st -> k ∈ key <$> fetch_base st.
Proof.
  intros Hk Hin. unfold fetch_base. destruct (Z.eqb _ _); [|exact Hin].
  apply list_elem_of_fmap in Hin as [t [-> Ht]].
  apply list_elem_of_fmap_2. now apply list_elem_of_filter.
Qed.

Lemma fetch_tickets_keeps_locked (r : Remote) (st : JiraUI) (k : string) :
  k ∈ locked_tickets st -> k ∈ key <$> tickets st ->
  k ∈ key <$> tickets (fst (fetch_tickets r st)).
Proof.
  intros Hk Hin. destruct (connect r) as [[]|e] eqn:Hc.
  - pose proof (fetch_tickets_connected r st Hc) as H.
    destruct (get_recent_tickets r (page_cursor st) 10). destruct H as (-> & _).
    rewrite fmap_app. apply elem_of_app. left. now apply fetch_base_keeps_locked.
  - now rewrite (fetch_tickets_not_connected r st e Hc).
Qed.

Lemma search_keeps_locked (r : Remote) (input : string) (st : JiraUI) (k : string) :
  k ∈ locked_tickets st -> k ∈ key <$> tickets st ->
  k ∈ key <$> tickets (fst (search_ticket_action r input st)).
Proof.
  intros Hk Hin. destruct (search_cases r input st) as (_ & _ & [->|[results ->]]); [done|].
  rewrite merge_results_keys. apply elem_of_dedup_first.
  rewrite fmap_app. apply elem_of_app. left.
  apply list_elem_of_fmap in Hin as [t [-> Ht]].
  apply list_elem_of_fmap_2. now apply list_elem_of_filter.
Qed.

(** C2: a key that is locked and in the collection is still in the
    collection, and still locked, after any sequence of fetches and searches,
    whatever the remote service answers. *)
Theorem lock_persistence (ops : list Op) (st : JiraUI) (k : string) :
  Forall is_browse ops ->
  k ∈ locked_tickets st -> k ∈ key <$> tickets st ->
  k ∈ key <$> tickets (run ops st) /\ k ∈ locked_tickets (run ops st).
Proof.
  unfold run. revert st. induction ops as [|o ops IH]; intros st Hops Hk Hin; [done|].
  apply Forall_cons in Hops as [Ho Hops]. simpl. apply IH; [exact Hops| |].
  - destruct o as [r|r input|sel]; simpl; [| |destruct Ho].
    + now rewrite fetch_tickets_locked.
    + now destruct (search_cases r input st) as (-> & _).
  - destruct o as [r|r input|sel]; simpl; [| |destruct Ho].
    + now apply fetch_tickets_keeps_locked.
    + now apply search_keeps_locked.
Qed.

Lemma lock_persistence_witness :
  let r := remote_with (Ok [tk "A-1"]) [tk "B-7"] in
  let ops := [op_fetch r; op_search r "B-7"; op_fetch (remote_listing (Raise "timeout"))] in
  "X-1" ∈ key <$> tickets (run ops (init {["X-1"]})) /\
  "X-1" ∈ locked_tickets (run ops (init {["X-1"]})).
Proof.
  apply lock_persistence.
  - repeat constructor.
  - vm_compute. reflexivity.
  - vm_compute. constructor.
Defined.

(** C1, at a first page that lists the key A-1 twice: both entries are
    appended, since the keys already present are collected once, before the
    page is walked through.  A search that names A-1 twice stores it once. *)
Theorem page_with_repeated_key :
  let r := remote_with (Ok [tk "A-1"; tk "A-1"]) [tk "A-1"] in
  let st := run [op_fetch r] (init ∅) in
  key <$> tickets st = ["A-1"; "A-1"] /\ ~ NoDup (key <$> tickets st) /\
  key <$> search_tickets r "A-1, A-1" = ["A-1"; "A-1"] /\
  key <$> tickets (run [op_search r "A-1, A-1"] (init ∅)) = ["A-1"].
Proof.
  vm_compute. split; [reflexivity|]. split; [|split; reflexivity].
  intros H. apply NoDup_cons in H as [H _]. apply H. constructor.
Qed.

(** ** Pagination *)

(** C7: a fetch that lists a non-empty page appends the tickets of the page
    whose keys are not yet present and moves to the next page, ten tickets
    further; a fetch with an empty result leaves the page where it is and
    reports "No more tickets available." as information. *)
Theorem fetch_next_page (r : Remote) (st : JiraUI) :
  connect r = Ok () ->
  let new_tickets := fst (get_recent_tickets r (page_cursor st) 10) in
  let st' := fst (fetch_tickets r st) in
  (new_tickets <> [] ->
     tickets st' =
       fetch_base st ++
       filter (fun ticket => key ticket ∉ keys_of (fetch_base st)) new_tickets /\
     current_page st' = (current_page st + 1)%Z /\
     page_cursor st' = (page_cursor st + 10)%Z) /\
  (new_tickets = [] ->
     current_page st' = current_page st /\
     page_cursor st' = page_cursor st /\
     snd (fetch_tickets r st) =
       snd (get_recent_tickets r (page_cursor st) 10)
       ++ [showinfo "Info" "No more tickets available."]) /\
  (search_issues r (page_cursor st) 10 = Ok [] ->
     snd (fetch_tickets r st) = [showinfo "Info" "No more tickets available."]) /\
  (current_page st <> 1%Z -> fetch_base st = tickets st).
Proof.
  intros Hc. pose proof (fetch_tickets_connected r st Hc) as H. simpl.
  destruct (get_recent_tickets r (page_cursor st) 10) as [new m2] eqn:Hg.
  destruct H as (Ht & _ & Hp & _ & Hm). simpl. repeat split.
  - exact Ht.
  - destruct new; [done|exact Hp].
  - unfold page_cursor. destruct new; [done|]. rewrite Hp. lia.
  - subst new. exact Hp.
  - unfold page_cursor. subst new. now rewrite Hp.
  - subst new. exact Hm.
  - intros Hs. unfold get_recent_tickets in Hg. rewrite Hs in Hg.
    injection Hg as <- <-. exact Hm.
  - intros Hne. unfold fetch_base. destruct (Z.eqb_spec (current_page st) 1); [done|reflexivity].
Qed.

Lemma fetch_next_page_witness :
  let r := remote_listing (Ok [tk "B-2"; tk "A-1"]) in
  let st' := fst (fetch_tickets r (init {["A-1"]})) in
  tickets st' = [dummy "A-1"; tk "B-2"] /\ current_page st' = 2%Z /\ page_cursor st' = 10%Z.
Proof.
  pose proof (fetch_next_page (remote_listing (Ok [tk "B-2"; tk "A-1"])) (init {["A-1"]})
                eq_refl) as (H & _).
  assert (Hnew : fst (get_recent_tickets (remote_listing (Ok [tk "B-2"; tk "A-1"]))
                        (page_cursor (init {["A-1"]})) 10) <> [])
    by (vm_compute; discriminate).
  destruct (H Hnew) as (Ht & Hp & Hc). cbv zeta.
  rewrite Ht, Hp, Hc. vm_compute. repeat split.
Defined.

(** ** Failed lookups *)

(** C3, as the claim states it: after a search found A-1, a first-page fetch
    whose listing fails shows the error and empties the collection. *)
Lemma failed_first_page_drops_unlocked :
  let st := fst (search_ticket_action (remote_with (Raise "timeout") [tk "A-1"]) "A-1" (init ∅)) in
  let r := remote_listing (Raise "timeout") in
  tickets st = [tk "A-1"] /\
  fst (get_recent_tickets r (page_cursor st) 10) = [] /\
  snd (get_recent_tickets r (page_cursor st) 10)
    = [showerror "Error" "Failed to retrieve tickets: timeout"] /\
  tickets (fst (fetch_tickets r st)) <> tickets st.
Proof. vm_compute. repeat split. discriminate. Qed.

(** C3, amended: a fetch whose listing fails shows the error and leaves the
    locked set and the page as they are; past the first page it leaves the
    collection as it is, on the first page it keeps the locked tickets of the
    collection only.  A fetch or a search that cannot connect, and a search
    whose lookups find nothing, leave collection, locked set and page as they
    are. *)
Theorem failed_lookup_state (r : Remote) (st : JiraUI) :
  (forall e, connect r = Ok () -> search_issues r (page_cursor st) 10 = Raise e ->
     let st' := fst (fetch_tickets r st) in
     locked_tickets st' = locked_tickets st /\
     current_page st' = current_page st /\
     (current_page st <> 1%Z -> tickets st' = tickets st) /\
     (current_page st = 1%Z ->
        tickets st' = filter (fun ticket => key ticket ∈ locked_tickets st) (tickets st)) /\
     showerror "Error" ("Failed to retrieve tickets: " +:+ e) ∈ snd (fetch_tickets r st)) /\
  (forall e, connect r = Raise e ->
     let st' := fst (fetch_tickets r st) in
     tickets st' = tickets st /\ locked_tickets st' = locked_tickets st /\
     current_page st' = current_page st /\
     showerror "Connection Error" ("Unable to connect to JIRA: " +:+ e)
       ∈ snd (fetch_tickets r st)) /\
  (forall input, search_tickets r (Py.strip input) = [] ->
     let st' := fst (search_ticket_action r input st) in
     tickets st' = tickets st /\ locked_tickets st' = locked_tickets st /\
     current_page st' = current_page st) /\
  (forall e input, jira st = false -> connect r = Raise e ->
     let st' := fst (search_ticket_action r input st) in
     tickets st' = tickets st /\ locked_tickets st' = locked_tickets st /\
     current_page st' = current_page st /\
     showerror "Connection Error" ("Unable to connect to JIRA: " +:+ e)
       ∈ snd (search_ticket_action r input st)).
Proof.
  split; [|split; [|split]].
  - intros e Hc Hs. pose proof (fetch_tickets_connected r st Hc) as Hf.
    unfold get_recent_tickets in Hf. rewrite Hs in Hf.
    destruct Hf as (Ht & Hl & Hp & _ & Hm). simpl.
    rewrite Ht, Hl, Hp, Hm, filter_nil, app_nil_r. unfold fetch_base.
    repeat split.
    + intros Hne. destruct (Z.eqb_spec (current_page st) 1); [done|reflexivity].
    + intros Heq. now rewrite Heq.
    + apply elem_of_app. left. constructor.
  - intros e Hc. rewrite (fetch_tickets_not_connected r st e Hc). simpl.
    repeat split. constructor.
  - intros input Hs. destruct (search_nothing r input st Hs) as (Ht & Hl & Hp & _).
    simpl. now rewrite Ht, Hl, Hp.
  - intros e input Hj Hc. rewrite (search_not_connected r input e st Hj Hc). simpl.
    repeat split. constructor.
Qed.

Lemma failed_lookup_state_witness :
  let r := remote_listing (Raise "timeout") in
  let st := fst (search_ticket_action (remote_with (Raise "timeout") [tk "A-1"]) "A-1"
                   (init {["X-1"]})) in
  tickets st = [dummy "X-1"; tk "A-1"] /\
  tickets (fst (fetch_tickets r st)) = [dummy "X-1"] /\
  current_page (fst (fetch_tickets r st)) = 1%Z /\
  tickets (fst (search_ticket_action r "Z-9" st)) = tickets st.
Proof.
  set (st := fst (search_ticket_action (remote_with (Raise "timeout") [tk "A-1"]) "A-1"
                    (init {["X-1"]}))).
  destruct (failed_lookup_state (remote_listing (Raise "timeout")) st) as (Hf & _ & Hs & _).
  destruct (Hf "timeout" eq_refl eq_refl) as (_ & Hp & _ & Ht & _).
  destruct (Hs "Z-9" eq_refl) as (Hu & _).
  cbv zeta. rewrite Hu, Hp, Ht by reflexivity. vm_compute. repeat split.
Defined.


(** ** The search merge *)

(** C5, as the claim states it: after a search found U-1, a search that
    finds nothing leaves U-1 in the collection, although it is neither locked
    nor a result of that search. *)
Lemma search_without_results_keeps_collection :
  let r := remote_with (Raise "timeout") [tk "U-1"] in
  let st := fst (search_ticket_action r "U-1" (init ∅)) in
  let results := search_tickets r (Py.strip "Z-9") in
  let kept := filter (fun ticket => key ticket ∈ locked_tickets st) (tickets st) in
  results = [] /\ kept = [] /\
  tickets (fst (search_ticket_action r "Z-9" st)) = [tk "U-1"] /\
  key <$> tickets (fst (search_ticket_action r "Z-9" st))
    <> dedup_first (key <$> (kept ++ results)).
Proof. vm_compute. repeat split. discriminate. Qed.

(** C5, amended: after a search that yields at least one result, the keys
    of the collection are the keys of the locked tickets it held, followed by
    the keys of the results, each key once and where it first stands; the
    ticket stored under a key is the last result with that key, or, without
    one, the locked ticket held before.  With the locked stub X-1 in the
    collection and the results X-1 (with a summary) and Y-2, the collection
    becomes X-1 with that summary and Y-2. *)
Theorem search_merge :
  (forall (r : Remote) (input : string) (st : JiraUI),
     jira st = true \/ connect r = Ok () ->
     search_tickets r (Py.strip input) <> [] ->
     let results := search_tickets r (Py.strip input) in
     let kept := filter (fun ticket => key ticket ∈ locked_tickets st) (tickets st) in
     let st' := fst (search_ticket_action r input st) in
     key <$> tickets st' = dedup_first (key <$> (kept ++ results)) /\
     NoDup (key <$> tickets st') /\
     (forall ticket, ticket ∈ tickets st' ->
        find_last (key ticket) (kept ++ results) = Some ticket) /\
     locked_tickets st' = locked_tickets st) /\
  (let x1 := {| key := "X-1";
                fields := Some {| summary := "updated"; description := None;
                                  comments := None |} |} in
   let st' := fst (search_ticket_action (remote_with (Raise "timeout") [x1; tk "Y-2"])
                     "X-1, Y-2" (init {["X-1"]})) in
   tickets (init {["X-1"]}) = [dummy "X-1"] /\
   tickets st' = [x1; tk "Y-2"] /\ length (tickets st') = 2%nat).
Proof.
  split.
  - intros r input st Hc Hres.
    destruct (search_found r input st Hc Hres) as (Ht & Hl & _). simpl.
    rewrite Ht, Hl, merge_results_keys. repeat split.
    + apply NoDup_dedup_first.
    + intros ticket. apply merge_results_value.
  - vm_compute. repeat split.
Qed.

Lemma search_merge_witness :
  let r := remote_with (Raise "timeout") [tk "Y-2"; tk "X-1"] in
  key <$> tickets (fst (search_ticket_action r "Y-2 X-1 Y-2" (init {["X-1"]})))
  = ["X-1"; "Y-2"].
Proof.
  destruct search_merge as (H & _).
  destruct (H (remote_with (Raise "timeout") [tk "Y-2"; tk "X-1"]) "Y-2 X-1 Y-2"
              (init {["X-1"]})) as (Hk & _).
  - right. reflexivity.
  - vm_compute. discriminate.
  - cbv zeta. rewrite Hk. vm_compute. reflexivity.
Defined.

(** C6, at the locked stub X-1 and a search for Y-2: the search returns one
    ticket and the panel reads "Found 2 ticket(s).", the size of the merged
    collection. *)
Theorem search_report_counts_collection :
  let r := remote_with (Raise "timeout") [tk "Y-2"] in
  let st' := fst (search_ticket_action r "Y-2" (init {["X-1"]})) in
  length (search_tickets r (Py.strip "Y-2")) = 1%nat /\
  key <$> tickets st' = ["X-1"; "Y-2"] /\
  text_display st' = [("Found 2 ticket(s)." +:+ String "010" EmptyString, header)].
Proof. vm_compute. repeat split. Qed.

(** The count a search reports is the size of the collection after the merge. *)
Lemma search_report (r : Remote) (input : string) (st : JiraUI) :
  jira st = true \/ connect r = Ok () ->
  search_tickets r (Py.strip input) <> [] ->
  let st' := fst (search_ticket_action r input st) in
  text_display st' = [(found_text (length (tickets st')), header)].
Proof. intros Hc Hres. now destruct (search_found r input st Hc Hres) as (_ & _ & _ & _ & ?). Qed.

(** ** Identity resolver *)

(** C9: a cached name is answered from the cache, without a request; an id
    that is not cached is requested from the remote service once, and the
    name is cached and answered; when the request fails the answer is
    "Unknown User", nothing is cached, and the next call requests again.
    [get_display_name] is a total function: no outcome is an exception. *)
Theorem identity_resolution (r : Remote) (account_id : string) (w : World) :
  (forall cached, user_cache w !! account_id = Some cached ->
     get_display_name r account_id w = (cached, w)) /\
  (forall user_obj, user_cache w !! account_id = None -> user r account_id = Ok user_obj ->
     let name := default account_id (displayName user_obj) in
     get_display_name r account_id w =
     (name, {| user_cache := <[account_id := name]> (user_cache w);
               user_calls := user_calls w ++ [account_id] |})) /\
  (forall e, user_cache w !! account_id = None -> user r account_id = Raise e ->
     get_display_name r account_id w =
     ("Unknown User", {| user_cache := user_cache w;
                         user_calls := user_calls w ++ [account_id] |}) /\
     forall r', user_calls (snd (get_display_name r' account_id
                                   (snd (get_display_name r account_id w))))
                = user_calls w ++ [account_id; account_id]).
Proof.
  unfold get_display_name. split; [|split].
  - intros cached ->. reflexivity.
  - intros user_obj -> ->. reflexivity.
  - intros e Hc Hu. rewrite Hc, Hu. split; [reflexivity|].
    intros r'. simpl. rewrite Hc.
    destruct (user r' account_id); simpl; now rewrite <- app_assoc.
Qed.

Lemma identity_resolution_witness :
  let w := {| user_cache := {["u2" := "Bob"]}; user_calls := [] |} in
  get_display_name remote_team "u2" w = ("Bob", w) /\
  get_display_name remote_team "u1" w =
    ("Alice", {| user_cache := <["u1" := "Alice"]> {["u2" := "Bob"]}; user_calls := ["u1"] |}) /\
  get_display_name remote_team "u3" w =
    ("Unknown User", {| user_cache := {["u2" := "Bob"]}; user_calls := ["u3"] |}).
Proof.
  set (w := {| user_cache := {["u2" := "Bob"]}; user_calls := [] |}).
  destruct (identity_resolution remote_team "u2" w) as (Hhit & _).
  destruct (identity_resolution remote_team "u1" w) as (_ & Hmiss & _).
  destruct (identity_resolution remote_team "u3" w) as (_ & _ & Hfail).
  split; [|split].
  - apply Hhit. vm_compute. reflexivity.
  - apply (Hmiss {| displayName := Some "Alice"; name := None |}).
    + vm_compute. reflexivity.
    + reflexivity.
  - apply (Hfail "User Does Not Exist").
    + vm_compute. reflexivity.
    + reflexivity.
Defined.

(** ** Mention rewriter *)







Example rewrite_mention_example :
  fst (resolve_mentions remote_team "[~accountid:u1] said hi"
         {| user_cache := ∅; user_calls := [] |}) = "@Alice said hi" /\
  fst (resolve_mentions remote_team "no marker [~accountid:] here"
         {| user_cache := ∅; user_calls := [] |}) = "no marker [~accountid:] here".
Proof. vm_compute. split; reflexivity. Qed.

(** ** Conversation assembler *)

Lemma append_cons (x : ascii) (a b : string) : String x a +:+ b = String x (a +:+ b).
Proof. reflexivity. Qed.

Lemma append_assoc (a b c : string) : (a +:+ b) +:+ c = a +:+ (b +:+ c).
Proof.
  induction a as [|x a IH]; [reflexivity|]. rewrite !append_cons. f_equal. exact IH.
Qed.

Lemma append_empty_r (a : string) : a +:+ EmptyString = a.
Proof.
  induction a as [|x a IH]; [reflexivity|]. rewrite append_cons. f_equal. exact IH.
Qed.










(** * Further properties of the tool *)

(** ** Row labels *)

Lemma endswith_char_app (ch : ascii) (s : string) :
  Py.endswith_char ch (s +:+ String ch EmptyString) = true.
Proof.
  induction s as [|c s IH]; [apply Ascii.eqb_refl|].
  rewrite append_cons. cbn [Py.endswith_char].
  destruct (s +:+ String ch EmptyString) eqn:Hs; [|exact IH].
  destruct s; discriminate.
Qed.

Lemma rstrip_char_app (ch : ascii) (s : string) :
  Py.rstrip_char ch (s +:+ String ch EmptyString) = Py.rstrip_char ch s.
Proof.
  unfold Py.rstrip_char. induction s as [|c s IH].
  - change (Py.rstrip_by (Ascii.eqb ch) (String ch EmptyString) = EmptyString).
    cbn [Py.rstrip_by]. now rewrite Ascii.eqb_refl.
  - rewrite append_cons. cbn [Py.rstrip_by]. now rewrite IH.
Qed.

Lemma rstrip_char_no_end (ch : ascii) (s : string) :
  Py.endswith_char ch s = false -> Py.rstrip_char ch s = s.
Proof.
  unfold Py.rstrip_char. induction s as [|c s IH]; [reflexivity|].
  cbn [Py.endswith_char Py.rstrip_by]. destruct s as [|c' s'].
  - cbn. rewrite Ascii.eqb_sym. now intros ->.
  - intros H. now rewrite (IH H).
Qed.

(** X4: stripping the marker from the label of a ticket gives back its key,
    locked or not, as long as the key itself does not end with the marker. *)
Theorem label_gives_key (locked : gset string) (ticket : Ticket) :
  no_star (key ticket) ->
  Py.rstrip_char "*" (display_key locked ticket) = key ticket.
Proof.
  unfold no_star, display_key. intros Hk. rewrite Hk.
  destruct (bool_decide (key ticket ∈ locked)); simpl.
  - rewrite rstrip_char_app. now apply rstrip_char_no_end.
  - now apply rstrip_char_no_end.
Qed.

Lemma label_gives_key_witness :
  Py.rstrip_char "*" (display_key {["A-2"]} (tk "A-2")) = "A-2".
Proof. apply (label_gives_key {["A-2"]} (tk "A-2")). reflexivity. Defined.

(** X6: the label of a locked ticket always ends with the marker, and the
    label of a ticket that is not locked is its key. *)
Theorem label_marks_locked (locked : gset string) (ticket : Ticket) :
  (key ticket ∈ locked -> Py.endswith_char "*" (display_key locked ticket) = true) /\
  (key ticket ∉ locked -> display_key locked ticket = key ticket).
Proof.
  unfold display_key. split; intros Hk.
  - rewrite bool_decide_eq_true_2 by done.
    destruct (Py.endswith_char "*" (key ticket)) eqn:He; simpl; [exact He|].
    apply endswith_char_app.
  - now rewrite bool_decide_eq_false_2 by done.
Qed.

Lemma label_marks_locked_witness :
  Py.endswith_char "*" (display_key {["A-2"]} (tk "A-2")) = true /\
  display_key {["A-2"]} (tk "A-1") = "A-1".
Proof.
  split.
  - apply (label_marks_locked {["A-2"]} (tk "A-2")). vm_compute. reflexivity.
  - apply (label_marks_locked {["A-2"]} (tk "A-1")). vm_compute. discriminate.
Defined.

(** ** The rows depend on the keys only *)

Lemma insert_by_fmap {A B K : Type} (ltb : K -> K -> bool) (g : B -> K) (f : A -> B)
    (x : A) (l : list A) :
  f <$> Py.insert_by ltb (fun a => g (f a)) x l = Py.insert_by ltb g (f x) (f <$> l).
Proof.
  induction l as [|y l IH]; [reflexivity|]. cbn [Py.insert_by fmap list_fmap].
  destruct (ltb (g (f y)) (g (f x))); [|reflexivity].
  rewrite fmap_cons. f_equal. exact IH.
Qed.

Lemma sorted_fmap {A B K : Type} (ltb : K -> K -> bool) (g : B -> K) (f : A -> B)
    (l : list A) :
  f <$> Py.sorted ltb (fun a => g (f a)) l = Py.sorted ltb g (f <$> l).
Proof.
  induction l as [|x l IH]; [reflexivity|]. cbn [Py.sorted fmap list_fmap].
  rewrite insert_by_fmap. f_equal. exact IH.
Qed.

Lemma display_rows_keys (locked : gset string) (l l' : list Ticket) :
  key <$> l = key <$> l' -> display_rows locked l = display_rows locked l'.
Proof.
  intros Hk. unfold display_rows, sorted_tickets.
  assert (H : forall l0 : list Ticket,
             display_key locked <$> Py.sorted tuple_ltb (sort_key locked) l0 =
             (fun k => display_key locked (dummy k)) <$>
               Py.sorted tuple_ltb (fun k => sort_key locked (dummy k)) (key <$> l0)).
  { intros l0.
    rewrite <- (sorted_fmap tuple_ltb (fun k => sort_key locked (dummy k)) key l0).
    rewrite <- list_fmap_compose. reflexivity. }
  now rewrite !H, Hk.
Qed.

Lemma length_display_rows (locked : gset string) (l : list Ticket) :
  length (display_rows locked l) = length l.
Proof.
  unfold display_rows, sorted_tickets. rewrite length_fmap.
  symmetry. apply Permutation_length, sorted_Permutation.
Qed.

(** ** Selecting a row keeps the collection *)

(** Case analysis on an innermost scrutinee of the goal. *)
Ltac break_inner :=
  match goal with
  | |- context [match ?x with _ => _ end] =>
      lazymatch x with
      | context [match _ with _ => _ end] => fail
      | _ => lazymatch type of x with
             | JiraUI => fail
             | _ => destruct x eqn:?
             end
      end
  end.

Lemma replace_first_keys (ticket : Ticket) (l : list Ticket) :
  key <$> replace_first ticket l = key <$> l.
Proof.
  induction l as [|t l IH]; [reflexivity|]. cbn [replace_first].
  destruct (String.eqb_spec (key t) (key ticket)) as [Heq|Hne].
  - rewrite !fmap_cons. now rewrite Heq.
  - rewrite !fmap_cons. now rewrite IH.
Qed.

Lemma on_ticket_select_frame (r : Remote) (selection : list nat) (st : JiraUI) :
  let st' := fst (fst (on_ticket_select r selection st)) in
  key <$> tickets st' = key <$> tickets st /\
  locked_tickets st' = locked_tickets st /\
  current_page st' = current_page st /\
  ticket_list st' = ticket_list st.
Proof.
  unfold on_ticket_select, connect_jira.
  repeat (break_inner; simpl); rewrite ?replace_first_keys; repeat split; try congruence.
  all: match goal with H : tickets _ = _ |- _ => now rewrite H end.
Qed.

(** X2: selecting a row changes neither the keys of the collection nor their
    order, nor the locked set, the page or the rows, whatever the remote
    service answers. *)
Theorem select_keeps_collection (r : Remote) (selection : list nat) (st : JiraUI) :
  let st' := fst (fst (on_ticket_select r selection st)) in
  key <$> tickets st' = key <$> tickets st /\
  locked_tickets st' = locked_tickets st /\
  current_page st' = current_page st /\
  ticket_list st' = ticket_list st.
Proof.
  unfold on_ticket_select, connect_jira.
  repeat (break_inner; simpl); rewrite ?replace_first_keys; repeat split; try congruence.
  all: match goal with H : tickets _ = _ |- _ => now rewrite H end.
Qed.

(** ** Invariants of a session *)

Lemma init_in_sync (locked : gset string) : in_sync (init locked).
Proof.
  unfold in_sync, init, init_in. case_bool_decide as Hl; [|reflexivity].
  subst locked. reflexivity.
Qed.

Lemma fetch_tickets_in_sync (r : Remote) (st : JiraUI) :
  in_sync st -> in_sync (fst (fetch_tickets r st)).
Proof.
  intros Hst. unfold in_sync. destruct (connect r) as [[]|e] eqn:Hc.
  - pose proof (fetch_tickets_connected r st Hc) as H.
    destruct (get_recent_tickets r (page_cursor st) 10).
    now destruct H as (_ & _ & _ & H & _).
  - now rewrite (fetch_tickets_not_connected r st e Hc).
Qed.

Lemma search_in_sync (r : Remote) (input : string) (st : JiraUI) :
  in_sync st -> in_sync (fst (search_ticket_action r input st)).
Proof.
  unfold in_sync, search_ticket_action, connect_jira. intros Hst.
  repeat (break_inner; simpl); done.
Qed.

Lemma lock_in_sync (sel : list nat) (st : JiraUI) :
  in_sync st -> in_sync (fst (lock_selected_tickets sel st)).
Proof. intros Hst. destruct sel; [exact Hst|reflexivity]. Qed.

Lemma select_in_sync (r : Remote) (selection : list nat) (st : JiraUI) :
  in_sync st -> in_sync (fst (fst (on_ticket_select r selection st))).
Proof.
  unfold in_sync. intros Hst.
  destruct (on_ticket_select_frame r selection st) as (Hk & -> & _ & ->).
  rewrite Hst. now apply display_rows_keys.
Qed.

Lemma perform_in_sync (a : Action) (st : JiraUI) : in_sync st -> in_sync (perform a st).
Proof.
  destruct a as [[r|r input|sel]|r selection]; simpl;
    auto using fetch_tickets_in_sync, search_in_sync, lock_in_sync, select_in_sync.
Qed.

(** X1: at startup and after every fetch, search, lock and selection, the
    list box shows the rows of the collection in display order; so it has as
    many rows as the collection has tickets, and every row index is an index
    of the collection. *)
Theorem rows_follow_collection (locked : gset string) (acts : list Action) :
  let st := session acts (init locked) in
  ticket_list st = display_rows (locked_tickets st) (tickets st) /\
  length (ticket_list st) = length (tickets st) /\
  (forall index, index < length (ticket_list st) -> is_Some (tickets st !! index)).
Proof.
  assert (H : in_sync (session acts (init locked))).
  { unfold session. generalize (init_in_sync locked). generalize (init locked).
    induction acts as [|a acts IH]; intros st Hst; [exact Hst|].
    simpl. apply IH. now apply perform_in_sync. }
  cbv zeta. unfold in_sync in H. split; [exact H|].
  assert (Hlen : length (ticket_list (session acts (init locked)))
                 = length (tickets (session acts (init locked))))
    by (rewrite H; apply length_display_rows).
  split; [exact Hlen|]. intros index Hi. apply lookup_lt_is_Some. lia.
Qed.

Lemma fetch_tickets_page (r : Remote) (st : JiraUI) :
  let p' := current_page (fst (fetch_tickets r st)) in
  p' = current_page st \/ p' = (current_page st + 1)%Z.
Proof.
  cbv zeta. destruct (connect r) as [[]|e] eqn:Hc.
  - pose proof (fetch_tickets_connected r st Hc) as H.
    destruct (get_recent_tickets r (page_cursor st) 10) as [new m].
    destruct H as (_ & _ & -> & _). destruct new; tauto.
  - rewrite (fetch_tickets_not_connected r st e Hc). now left.
Qed.

Lemma perform_page (a : Action) (st : JiraUI) :
  (current_page st <= current_page (perform a st))%Z.
Proof.
  destruct a as [[r|r input|sel]|r selection]; simpl.
  - destruct (fetch_tickets_page r st) as [->| ->]; lia.
  - destruct (search_cases r input st) as (_ & -> & _). lia.
  - destruct (lock_selected_tickets_tickets sel st) as (_ & ->). lia.
  - destruct (on_ticket_select_frame r selection st) as (_ & _ & -> & _). lia.
Qed.

(** X13: the page number never goes back: after any actions it is at least
    what it was, so in a session it is at least 1 and the offset asked of the
    remote listing is never negative. *)
Theorem page_never_goes_back (acts : list Action) (st : JiraUI) (locked : gset string) :
  (current_page st <= current_page (session acts st))%Z /\
  (1 <= current_page (session acts (init locked)))%Z /\
  (0 <= page_cursor (session acts (init locked)))%Z.
Proof.
  assert (H : forall st0, (current_page st0 <= current_page (session acts st0))%Z).
  { unfold session. induction acts as [|a acts IH]; intros st0; simpl; [lia|].
    specialize (IH (perform a st0)). pose proof (perform_page a st0). lia. }
  split; [apply H|]. specialize (H (init locked)).
  assert (Hi : current_page (init locked) = 1%Z)
    by (unfold init, init_in; case_bool_decide; reflexivity).
  unfold page_cursor. lia.
Qed.

(** X14: once the first page is behind, a fetch only adds to the end of the
    collection: whatever the remote service answers, the tickets held before
    are all still there, in the same order, at the front. *)
Theorem later_fetch_only_appends (r : Remote) (st : JiraUI) :
  current_page st <> 1%Z ->
  tickets st `prefix_of` tickets (fst (fetch_tickets r st)).
Proof.
  intros Hp. destruct (connect r) as [[]|e] eqn:Hc.
  - pose proof (fetch_tickets_connected r st Hc) as H.
    destruct (get_recent_tickets r (page_cursor st) 10) as [new m].
    destruct H as (-> & _). unfold fetch_base.
    destruct (Z.eqb_spec (current_page st) 1); [done|]. now apply prefix_app_r.
  - now rewrite (fetch_tickets_not_connected r st e Hc).
Qed.

Lemma later_fetch_only_appends_witness :
  let st := fst (fetch_tickets (remote_listing (Ok [tk "A-2"; tk "A-1"])) (init ∅)) in
  tickets st `prefix_of`
    tickets (fst (fetch_tickets (remote_listing (Ok [tk "A-1"; tk "A-0"])) st)).
Proof.
  apply later_fetch_only_appends. vm_compute. discriminate.
Defined.

Lemma perform_NoDup (a : Action) (st : JiraUI) :
  match a with act_op (op_fetch r) => distinct_page r | _ => True end ->
  NoDup (key <$> tickets st) -> NoDup (key <$> tickets (perform a st)).
Proof.
  destruct a as [[r|r input|sel]|r selection]; simpl; intros Ha Hst.
  - now apply fetch_tickets_NoDup.
  - now apply search_NoDup.
  - now destruct (lock_selected_tickets_tickets sel st) as [-> _].
  - now destruct (on_ticket_select_frame r selection st) as (-> & _).
Qed.

(** X15: in a session in which no listing of the remote service shows a key
    twice, the collection never holds two tickets with the same key, also
    when rows are selected and stubs replaced in between. *)
Theorem session_keys_distinct (locked : gset string) (acts : list Action) :
  distinct_listings acts ->
  NoDup (key <$> tickets (session acts (init locked))).
Proof.
  intros Hacts. unfold session.
  assert (Hi : NoDup (key <$> tickets (init locked)))
    by (unfold init, init_in; case_bool_decide; apply init_tickets_NoDup).
  revert Hi. generalize (init locked).
  induction Hacts as [|a acts Ha Hacts IH]; intros st Hst; [exact Hst|].
  simpl. apply IH. now apply perform_NoDup.
Qed.

Lemma session_keys_distinct_witness :
  let r := remote_with (Ok [tk "B-2"; tk "A-1"]) [tk "A-1"] in
  NoDup (key <$> tickets (session [act_op (op_fetch r); act_select r [0%nat];
                                   act_op (op_search r "A-1")] (init {["A-1"]}))).
Proof.
  apply session_keys_distinct. repeat constructor.
  intros start_at max_results page Hp. injection Hp as <-.
  apply (bool_decide_unpack _). vm_compute. exact I.
Defined.

Lemma rows_follow_collection_witness :
  let st := session [act_op (op_fetch (remote_listing (Ok [tk "B-2"; tk "A-1"])))]
              (init {["X-1"]}) in
  is_Some (tickets st !! 2%nat).
Proof.
  apply rows_follow_collection. vm_compute. lia.
Defined.

(** ** Startup *)

Lemma add_dummies_fresh (ks : list string) (acc : list Ticket) :
  NoDup ks -> (forall k, k ∈ ks -> k ∉ key <$> acc) ->
  fold_left (fun acc k =>
               if existsb (fun ticket => String.eqb (key ticket) k) acc
               then acc else acc ++ [dummy k]) ks acc
  = acc ++ (dummy <$> ks).
Proof.
  intros Hks. revert acc. induction Hks as [|k ks Hk Hks IH]; intros acc Hacc; simpl.
  - now rewrite app_nil_r.
  - destruct (existsb _ acc) eqn:Hex.
    + exfalso. apply existsb_exists in Hex as [t [Ht Heq]].
      apply String.eqb_eq in Heq. apply (Hacc k); [apply elem_of_cons; tauto|].
      rewrite <- Heq. apply list_elem_of_fmap_2. now apply list_elem_of_In.
    + rewrite IH, <- app_assoc; [reflexivity|].
      intros k' Hk'. rewrite fmap_app, not_elem_of_app. split.
      * apply Hacc. apply elem_of_cons. tauto.
      * simpl. intros Hin. apply list_elem_of_singleton in Hin. congruence.
Qed.

Lemma init_in_tickets (order : list string) (locked : gset string) :
  NoDup order -> tickets (init_in order locked) = dummy <$> order.
Proof.
  intros Ho. transitivity (init_tickets_in order); [unfold init_in; now case_bool_decide|].
  unfold init_tickets_in. rewrite add_dummies_fresh; [reflexivity|exact Ho|].
  intros k _. apply not_elem_of_nil.
Qed.

(** X21: at startup the collection holds exactly one stub for every locked
    key read from the configuration, nothing else, and the first page is
    pending; the stubs stand in the order in which the loop meets the keys
    of the locked set, whichever that order is. *)
Theorem startup_collection (locked : gset string) :
  tickets (init locked) = dummy <$> elements locked /\
  key <$> tickets (init locked) = elements locked /\
  (forall k, k ∈ key <$> tickets (init locked) <-> k ∈ locked) /\
  locked_tickets (init locked) = locked /\ current_page (init locked) = 1%Z /\
  (forall order, order ≡ₚ elements locked ->
     tickets (init_in order locked) = dummy <$> order /\
     key <$> tickets (init_in order locked) = order /\
     (forall k, k ∈ key <$> tickets (init_in order locked) <-> k ∈ locked) /\
     NoDup (key <$> tickets (init_in order locked)) /\
     locked_tickets (init_in order locked) = locked /\
     current_page (init_in order locked) = 1%Z).
Proof.
  assert (Hin : forall order, order ≡ₚ elements locked ->
     tickets (init_in order locked) = dummy <$> order /\
     key <$> tickets (init_in order locked) = order /\
     (forall k, k ∈ key <$> tickets (init_in order locked) <-> k ∈ locked) /\
     NoDup (key <$> tickets (init_in order locked)) /\
     locked_tickets (init_in order locked) = locked /\
     current_page (init_in order locked) = 1%Z).
  { intros order Ho.
    assert (Hnd : NoDup order) by (rewrite Ho; apply NoDup_elements).
    assert (Ht := init_in_tickets order locked Hnd).
    assert (Hk : key <$> tickets (init_in order locked) = order).
    { rewrite Ht, <- list_fmap_compose. apply list_fmap_id. }
    split; [exact Ht|]. split; [exact Hk|]. split; [|split].
    - intros k. rewrite Hk, Ho. apply elem_of_elements.
    - now rewrite Hk.
    - unfold init_in. now case_bool_decide. }
  destruct (Hin (elements locked) (reflexivity _)) as (Ht & Hk & Hm & _ & Hl & Hp).
  split; [exact Ht|]. split; [exact Hk|]. split; [exact Hm|]. split; [exact Hl|].
  split; [exact Hp|exact Hin].
Qed.

(** ** Replacing a stub *)

Lemma replace_first_insert (full t : Ticket) (l : list Ticket) (index : nat) :
  NoDup (key <$> l) -> l !! index = Some t -> key full = key t ->
  replace_first full l = <[index := full]> l.
Proof.
  intros Hl. revert index. induction l as [|t0 l IH]; intros index Hi Hk; [discriminate|].
  rewrite fmap_cons in Hl. apply NoDup_cons in Hl as [H0 Hl].
  cbn [replace_first]. destruct index as [|j]; simpl in Hi.
  - injection Hi as ->. rewrite Hk, String.eqb_refl. reflexivity.
  - destruct (String.eqb_spec (key t0) (key full)) as [Heq|Hne].
    + exfalso. apply H0. rewrite Heq, Hk. apply list_elem_of_fmap_2.
      eapply list_elem_of_lookup_2. exact Hi.
    + simpl. f_equal. now apply IH.
Qed.

(** X3: selecting a row whose ticket is a stub, with the connection up and
    the remote service answering the issue of that key, replaces the stub in
    place by the issue, hands the issue to the loader and shows the loading
    notice; every other ticket stays where it is. *)
Theorem stub_replaced_in_place (r : Remote) (index : nat) (rest : list nat)
    (st : JiraUI) (stub full : Ticket) :
  tickets st !! index = Some stub -> fields stub = None ->
  NoDup (key <$> tickets st) ->
  (key stub ∈ locked_tickets st -> connect r = Ok ()) ->
  (key stub ∉ locked_tickets st -> jira st = true) ->
  issue r (key stub) = Ok full -> key full = key stub ->
  let '(st', msgs, loaded) := on_ticket_select r (index :: rest) st in
  tickets st' = <[index := full]> (tickets st) /\
  loaded = Some full /\ msgs = [] /\
  text_display st' = [("Loading, please wait...", normal)].
Proof.
  intros Hi Hf Hnd Hlocked Hfree Hr Hk. unfold on_ticket_select, connect_jira.
  destruct (tickets st) as [|t0 l0] eqn:Ht; [discriminate|].
  rewrite Hi. rewrite <- Ht in *. clear Ht t0 l0.
  destruct (decide (key stub ∈ locked_tickets st)) as [Hin|Hout].
  - rewrite bool_decide_eq_true_2 by done. rewrite (Hlocked Hin). simpl.
    rewrite Hf, Hr. simpl.
    now rewrite (replace_first_insert full stub (tickets st) index).
  - rewrite bool_decide_eq_false_2 by done. simpl.
    rewrite Hf, (Hfree Hout), Hr. simpl.
    now rewrite (replace_first_insert full stub (tickets st) index).
Qed.

Lemma stub_replaced_in_place_witness :
  let r := remote_with (Ok []) [issue_a1] in
  tickets (fst (fst (on_ticket_select r [0%nat] (init {["A-1"]})))) = [issue_a1].
Proof.
  cbv zeta.
  pose proof (stub_replaced_in_place (remote_with (Ok []) [issue_a1]) 0 []
                (init {["A-1"]}) (dummy "A-1") issue_a1) as H.
  destruct (on_ticket_select (remote_with (Ok []) [issue_a1]) [0%nat] (init {["A-1"]}))
    as [[st' msgs] loaded].
  destruct H as (Ht & _).
  - vm_compute. reflexivity.
  - reflexivity.
  - apply (bool_decide_unpack _). vm_compute. exact I.
  - reflexivity.
  - intros Hout. exfalso. apply Hout. vm_compute. reflexivity.
  - reflexivity.
  - reflexivity.
  - simpl. rewrite Ht. vm_compute. reflexivity.
Defined.

(** ** Acting on the selected rows *)

Lemma row_label_key (st : JiraUI) (index : nat) :
  in_sync st -> Forall (fun ticket => no_star (key ticket)) (tickets st) ->
  index < length (tickets st) ->
  Py.rstrip_char "*" (default EmptyString (ticket_list st !! index)) = row_key st index.
Proof.
  intros Hs Hns Hi. unfold row_key. rewrite Hs. unfold display_rows.
  rewrite list_lookup_fmap.
  assert (Hperm : Permutation (tickets st)
                    (sorted_tickets (locked_tickets st) (tickets st)))
    by apply sorted_Permutation.
  destruct (sorted_tickets (locked_tickets st) (tickets st) !! index) as [t|] eqn:Ht.
  - assert (Hk : no_star (key t)).
    { rewrite Hperm in Hns. rewrite Forall_forall in Hns. apply Hns.
      eapply list_elem_of_lookup_2. exact Ht. }
    simpl. unfold no_star in Hk. unfold display_key. rewrite Hk.
    destruct (bool_decide (key t ∈ locked_tickets st)); simpl;
      [rewrite rstrip_char_app|]; now apply rstrip_char_no_end.
  - apply lookup_ge_None in Ht. rewrite <- Hperm in Ht. lia.
Qed.

Lemma elem_of_toggle (locked : gset string) (k k' : string) :
  k ∈ toggle locked k' <-> (k = k' /\ k ∉ locked) \/ (k <> k' /\ k ∈ locked).
Proof.
  unfold toggle. case_bool_decide as Hk.
  - rewrite elem_of_difference, elem_of_singleton.
    destruct (decide (k = k')) as [->|Hne]; tauto.
  - rewrite elem_of_union, elem_of_singleton.
    destruct (decide (k = k')) as [->|Hne]; tauto.
Qed.

Lemma fold_toggle_rows (st : JiraUI) :
  in_sync st -> Forall (fun ticket => no_star (key ticket)) (tickets st) ->
  forall (l : list nat) (locked : gset string),
    Forall (fun index => index < length (tickets st)) l ->
    fold_left (fun locked index =>
                 toggle locked
                   (Py.rstrip_char "*" (default EmptyString (ticket_list st !! index))))
              l locked
    = fold_left (fun locked index => toggle locked (row_key st index)) l locked.
Proof.
  intros Hs Hns l locked Hl. revert locked.
  induction Hl as [|j l Hj Hl IH]; intros locked; [reflexivity|].
  cbn [fold_left]. rewrite (row_label_key st j Hs Hns Hj). apply IH.
Qed.

(** X5: with the list box showing the collection and no key ending with the
    marker, locking a selection of rows toggles, row after row, the key of the
    ticket shown in that row, and leaves the collection as it is; for a single
    row, exactly the ticket shown there changes sides. *)
Theorem lock_toggles_shown_tickets (sel : list nat) (st : JiraUI) :
  in_sync st -> Forall (fun ticket => no_star (key ticket)) (tickets st) ->
  sel <> [] -> Forall (fun index => index < length (tickets st)) sel ->
  let st' := fst (lock_selected_tickets sel st) in
  locked_tickets st' =
    fold_left (fun locked index => toggle locked (row_key st index)) sel (locked_tickets st) /\
  tickets st' = tickets st /\
  (forall index, sel = [index] ->
     forall k, k ∈ locked_tickets st' <->
               (k = row_key st index /\ k ∉ locked_tickets st) \/
               (k <> row_key st index /\ k ∈ locked_tickets st)).
Proof.
  intros Hs Hns Hne Hsel.
  assert (Hl : locked_tickets (fst (lock_selected_tickets sel st)) =
               fold_left (fun locked index => toggle locked (row_key st index)) sel
                         (locked_tickets st)).
  { destruct sel as [|i sel]; [done|].
    now apply (fold_toggle_rows st Hs Hns (i :: sel)). }
  cbv zeta. split; [exact Hl|]. split.
  - now destruct (lock_selected_tickets_tickets sel st) as [-> _].
  - intros index -> k. rewrite Hl. simpl. apply elem_of_toggle.
Qed.

Lemma lock_toggles_shown_tickets_witness :
  let st := fst (fetch_tickets (remote_listing (Ok [tk "B-1"; tk "A-1"])) (init ∅)) in
  "A-1" ∈ locked_tickets (fst (lock_selected_tickets [0%nat] st)).
Proof.
  set (st := fst (fetch_tickets (remote_listing (Ok [tk "B-1"; tk "A-1"])) (init ∅))).
  destruct (lock_toggles_shown_tickets [0%nat] st) as (_ & _ & H).
  - apply fetch_tickets_in_sync, init_in_sync.
  - vm_compute. repeat constructor.
  - discriminate.
  - vm_compute. repeat constructor.
  - cbv zeta. apply (H 0%nat eq_refl). left. split; [reflexivity|].
    vm_compute. discriminate.
Defined.

Lemma endswith_rstrip_char (ch : ascii) (s : string) :
  Py.endswith_char ch (Py.rstrip_char ch s) = false.
Proof.
  unfold Py.rstrip_char. induction s as [|c s IH]; [reflexivity|].
  cbn [Py.rstrip_by]. destruct (Py.rstrip_by (Ascii.eqb ch) s) as [|c' r] eqn:Hr.
  - destruct (Ascii.eqb ch c) eqn:Hc; [reflexivity|].
    cbn. now rewrite Ascii.eqb_sym.
  - exact IH.
Qed.

(** X16: with the list box showing the collection and no key ending with
    the marker, opening a selection of rows hands the browser, for every
    selected row in turn, the address of the ticket shown in that row: the
    URL field stripped of blanks and trailing slashes, "/browse/", the key. *)
Theorem open_shows_selected (entry_url : string) (sel : list nat) (st : JiraUI) :
  in_sync st -> Forall (fun ticket => no_star (key ticket)) (tickets st) ->
  sel <> [] -> Forall (fun index => index < length (tickets st)) sel ->
  let base_url := Py.rstrip_char "/" (Py.strip entry_url) in
  open_selected_tickets entry_url sel st =
    ((fun index => base_url +:+ "/browse/" +:+ row_key st index) <$> sel, []) /\
  Py.endswith_char "/" base_url = false.
Proof.
  intros Hs Hns Hne Hsel. cbv zeta. split; [|apply endswith_rstrip_char].
  unfold open_selected_tickets.
  destruct (tickets st) as [|t0 l0] eqn:Ht.
  { destruct sel as [|i sel]; [done|]. apply Forall_cons in Hsel as [Hi _]. simpl in Hi. lia. }
  destruct sel as [|i sel]; [done|]. rewrite <- Ht in *. f_equal.
  apply list_fmap_ext. intros n j Hj. simpl.
  rewrite (row_label_key st j Hs Hns); [reflexivity|].
  rewrite Forall_forall in Hsel. apply Hsel. eapply list_elem_of_lookup_2. exact Hj.
Qed.

Lemma open_shows_selected_witness :
  let st := fst (fetch_tickets (remote_listing (Ok [tk "B-1"; tk "A-1"])) (init {["B-1"]})) in
  fst (open_selected_tickets " https://jira.example.org// " [0%nat; 1%nat] st) =
  ["https://jira.example.org/browse/B-1"; "https://jira.example.org/browse/A-1"].
Proof.
  set (st := fst (fetch_tickets (remote_listing (Ok [tk "B-1"; tk "A-1"])) (init {["B-1"]}))).
  destruct (open_shows_selected " https://jira.example.org// " [0%nat; 1%nat] st) as (H & _).
  - apply fetch_tickets_in_sync, init_in_sync.
  - vm_compute. repeat constructor.
  - discriminate.
  - vm_compute. repeat constructor.
  - cbv zeta. rewrite H. vm_compute. reflexivity.
Defined.

(** X17: with the list box showing the collection and no key ending with the
    marker, an export that can be written names the file after the clock and
    the number of selected rows, writes one line per selected row, and each
    line stripped of the marker is the key of the ticket shown in that row. *)
Theorem export_writes_selected (time_str date_str : string) (sel : list nat) (st : JiraUI) :
  in_sync st -> Forall (fun ticket => no_star (key ticket)) (tickets st) ->
  sel <> [] -> Forall (fun index => index < length (tickets st)) sel ->
  exists lines,
    fst (export_selected_ticket_list time_str date_str (Ok ()) sel st) =
      Some ("current-" +:+ time_str +:+ "_" +:+ date_str +:+ "_" +:+ pretty (length lines)
            +:+ "_tickets.txt",
            foldr (fun line text => line +:+ String "010" text) EmptyString lines) /\
    length lines = length sel /\
    Py.rstrip_char "*" <$> lines = row_key st <$> sel.
Proof.
  intros Hs Hns Hne Hsel.
  exists ((fun index => default EmptyString (ticket_list st !! index)) <$> sel).
  rewrite length_fmap. split; [destruct sel; [done|reflexivity]|]. split; [reflexivity|].
  rewrite <- list_fmap_compose. apply list_fmap_ext. intros n j Hj. simpl.
  apply (row_label_key st j Hs Hns).
  rewrite Forall_forall in Hsel. apply Hsel. eapply list_elem_of_lookup_2. exact Hj.
Qed.

Lemma export_writes_selected_witness :
  let st := fst (fetch_tickets (remote_listing (Ok [tk "A-2"; tk "A-1"])) (init {["A-2"]})) in
  fst (export_selected_ticket_list "101500" "03-01-2024" (Ok ()) [1%nat; 0%nat] st) =
  Some ("current-101500_03-01-2024_2_tickets.txt",
        "A-1" +:+ String "010" ("A-2*" +:+ String "010" EmptyString)).
Proof.
  set (st := fst (fetch_tickets (remote_listing (Ok [tk "A-2"; tk "A-1"])) (init {["A-2"]}))).
  destruct (export_writes_selected "101500" "03-01-2024" [1%nat; 0%nat] st)
    as (lines & H & _).
  - apply fetch_tickets_in_sync, init_in_sync.
  - vm_compute. repeat constructor.
  - discriminate.
  - vm_compute. repeat constructor.
  - cbv zeta. vm_compute. reflexivity.
Defined.

(** ** Extracting keys from the search field *)

Lemma span_app (p : ascii -> bool) (a b : string) :
  all_chars p a = true ->
  match b with EmptyString => True | String c _ => p c = false end ->
  span p (a +:+ b) = (a, b).
Proof.
  intros Ha Hb. induction a as [|c a IH].
  - change (EmptyString +:+ b) with b. destruct b as [|c b]; [reflexivity|].
    cbn [span]. now rewrite Hb.
  - cbn [all_chars] in Ha. apply andb_true_iff in Ha as [Hc Ha].
    rewrite append_cons. cbn [span]. now rewrite Hc, (IH Ha).
Qed.

Lemma span_all (p : ascii -> bool) (s a b : string) :
  span p s = (a, b) -> all_chars p a = true.
Proof.
  revert a b. induction s as [|c s IH]; intros a b; cbn [span].
  - now intros [= <- <-].
  - destruct (p c) eqn:Hc; [|now intros [= <- <-]].
    destruct (span p s) as [a' b']. intros [= <- <-].
    cbn [all_chars]. now rewrite Hc, (IH a' b').
Qed.

Lemma match_key_shape (s m : string) : match_key s = Some m -> ticket_key_shape m.
Proof.
  unfold match_key. destruct (span Py.is_letter s) as [letters r1] eqn:Hl.
  destruct letters as [|c0 letters]; [discriminate|].
  destruct r1 as [|c r2]; [discriminate|].
  destruct (Ascii.eqb_spec c "-") as [->|]; [|discriminate].
  destruct (span Py.is_digit r2) as [ds r3] eqn:Hd.
  destruct ds as [|d0 ds]; [discriminate|]. intros [= <-].
  exists (String c0 letters), (String d0 ds). repeat split; try discriminate.
  - eapply span_all, Hl.
  - eapply span_all, Hd.
Qed.

Lemma match_key_found (m b : string) :
  ticket_key_shape m ->
  match b with EmptyString => True | String c _ => Py.is_digit c = false end ->
  match_key (m +:+ b) = Some m.
Proof.
  intros (letters & ds & -> & Hl & Hd & Hal & Had) Hb. unfold match_key.
  rewrite !append_assoc.
  rewrite (span_app Py.is_letter letters ("-" +:+ ds +:+ b) Hal) by reflexivity.
  destruct letters as [|c0 letters]; [done|].
  change ("-" +:+ ds +:+ b) with (String "-" (ds +:+ b)). cbn [Ascii.eqb Bool.eqb].
  rewrite (span_app Py.is_digit ds b Had Hb).
  destruct ds as [|d0 ds]; [done|]. reflexivity.
Qed.

Lemma findall_keys_skip (a b : string) :
  findall_keys (String.length a) (a +:+ b) = findall_keys 0 b.
Proof.
  induction a as [|c a IH]; [reflexivity|]. rewrite append_cons. exact IH.
Qed.

Lemma findall_keys_head (m b : string) :
  ticket_key_shape m ->
  match b with EmptyString => True | String c _ => Py.is_digit c = false end ->
  findall_keys 0 (m +:+ b) = m :: findall_keys 0 b.
Proof.
  intros Hm Hb. pose proof (match_key_found m b Hm Hb) as Hk.
  destruct m as [|c m]; [destruct Hm as (l & d & H & Hl & _); destruct l; done|].
  rewrite append_cons in *. cbn [findall_keys]. rewrite Hk. f_equal.
  replace (String.length (String c m) - 1) with (String.length m)
    by (cbn [String.length]; lia).
  apply findall_keys_skip.
Qed.

Lemma findall_keys_separator (c : ascii) (s : string) :
  Py.is_letter c = false -> findall_keys 0 (String c s) = findall_keys 0 s.
Proof.
  intros Hc. cbn [findall_keys]. unfold match_key. cbn [span]. now rewrite Hc.
Qed.

Lemma findall_keys_shape (s : string) (skip : nat) (m : string) :
  m ∈ findall_keys skip s -> ticket_key_shape m.
Proof.
  revert skip. induction s as [|c s IH]; intros skip; cbn [findall_keys].
  - intros H. inversion H.
  - destruct skip as [|n]; [|apply IH].
    destruct (match_key (String c s)) as [m'|] eqn:Hk; [|apply IH].
    rewrite elem_of_cons. intros [->|H]; [eapply match_key_shape, Hk|eapply IH, H].
Qed.

(** X8: every key extracted from the search field is made of letters, a
    dash and digits; and keys of that shape written one after the other with
    any separator that is neither a letter nor a digit are all extracted, in
    the order written. *)
Theorem search_field_keys :
  (forall s m, m ∈ findall_keys 0 s -> ticket_key_shape m) /\
  (forall (sep : ascii) (ks : list string),
     Py.is_letter sep = false -> Py.is_digit sep = false ->
     Forall ticket_key_shape ks ->
     findall_keys 0 (str_join (String sep EmptyString) ks) = ks).
Proof.
  split; [intros s m; apply findall_keys_shape|].
  intros sep ks Hl Hd Hks. induction Hks as [|k ks Hk Hks IH]; [reflexivity|].
  destruct ks as [|k2 ks].
  - cbn [str_join]. rewrite <- (append_empty_r k) at 1.
    now rewrite (findall_keys_head k EmptyString Hk I).
  - change (str_join (String sep EmptyString) (k :: k2 :: ks))
      with (k +:+ String sep (str_join (String sep EmptyString) (k2 :: ks))).
    rewrite (findall_keys_head k (String sep (str_join (String sep EmptyString) (k2 :: ks)))
               Hk Hd).
    rewrite (findall_keys_separator sep _ Hl). now rewrite IH.
Qed.

Lemma search_field_keys_witness :
  findall_keys 0 (str_join ";" ["ABC-12"; "x-7"]) = ["ABC-12"; "x-7"].
Proof.
  destruct search_field_keys as (_ & H). apply H; [reflexivity|reflexivity|].
  repeat constructor.
  - exists "ABC", "12". repeat split; discriminate.
  - exists "x", "7". repeat split; discriminate.
Defined.

Lemma collect_issues (r : Remote) (ks : list string) (acc : list Ticket) :
  fold_left (fun results k =>
               match issue r k with
               | Ok i => results ++ [i]
               | Raise _ => results
               end) ks acc
  = acc ++ omap (lookup_issue r) ks.
Proof.
  revert acc. induction ks as [|k ks IH]; intros acc; simpl.
  - now rewrite app_nil_r.
  - rewrite IH. unfold lookup_issue at 2. destruct (issue r k); [|reflexivity].
    now rewrite <- app_assoc.
Qed.

(** X7: a search returns, in the order of the keys extracted from the field,
    the issues the remote service has for them; a key whose lookup fails is
    left out without a message, so there are at most as many results as keys,
    and as many when every lookup succeeds. *)
Theorem search_drops_failed_lookups (r : Remote) (search_input : string) :
  search_tickets r search_input = omap (lookup_issue r) (findall_keys 0 search_input) /\
  length (search_tickets r search_input) <= length (findall_keys 0 search_input) /\
  (Forall (fun k => is_Some (lookup_issue r k)) (findall_keys 0 search_input) ->
   length (search_tickets r search_input) = length (findall_keys 0 search_input)).
Proof.
  assert (H : search_tickets r search_input
              = omap (lookup_issue r) (findall_keys 0 search_input))
    by apply (collect_issues r _ []).
  rewrite H. split; [reflexivity|]. generalize (findall_keys 0 search_input) as ks.
  intros ks. split.
  - induction ks as [|k ks IH]; [done|]. cbn [omap list_omap].
    destruct (lookup_issue r k); cbn [length]; fold (omap (lookup_issue r) ks); lia.
  - induction 1 as [|k ks [i Hi] Hks IH]; [done|]. cbn [omap list_omap]. rewrite Hi.
    cbn [length]. fold (omap (lookup_issue r) ks). lia.
Qed.

Lemma search_drops_failed_lookups_witness :
  let r := remote_with (Ok []) [tk "B-2"; tk "A-1"] in
  length (search_tickets r "A-1, B-2") = length (findall_keys 0 "A-1, B-2").
Proof.
  apply search_drops_failed_lookups. vm_compute. repeat constructor; eexists; reflexivity.
Defined.

(** ** Texts without markers *)

Lemma match_mention_other (c : ascii) (s : string) :
  Ascii.eqb c "[" = false -> match_mention (String c s) = None.
Proof.
  intros Hc. unfold match_mention. cbn [Py.drop_prefix].
  rewrite Ascii.eqb_sym. now rewrite Hc.
Qed.

(** X9: a text without an opening bracket passes through the mention
    rewriter unchanged, and the rewriter neither asks the remote service for a
    user nor touches the cache. *)
Theorem plain_text_unchanged (r : Remote) (text : string) (w : World) :
  all_chars (fun c => negb (Ascii.eqb c "[")) text = true ->
  resolve_mentions r text w = (text, w).
Proof.
  intros Ht. unfold resolve_mentions. destruct text as [|c0 s0]; [reflexivity|].
  revert Ht. generalize (String c0 s0) as s. clear c0 s0.
  induction s as [|c s IH]; intros Hs; [reflexivity|].
  cbn [all_chars] in Hs. apply andb_true_iff in Hs as [Hc Hs].
  apply negb_true_iff in Hc. cbn [sub_mentions].
  rewrite (match_mention_other c s Hc), (IH Hs). reflexivity.
Qed.

Lemma plain_text_unchanged_witness :
  resolve_mentions remote_team "No Description" {| user_cache := ∅; user_calls := [] |}
  = ("No Description", {| user_cache := ∅; user_calls := [] |}).
Proof. apply plain_text_unchanged. reflexivity. Defined.

(** ** The identity cache over a whole ticket *)

Lemma extends_refl (w : World) : extends w w.
Proof. split; [auto|]. exists []. now rewrite app_nil_r. Qed.

Lemma extends_trans (w1 w2 w3 : World) : extends w1 w2 -> extends w2 w3 -> extends w1 w3.
Proof.
  intros [Hc12 (n12 & Hn12 & Hf12)] [Hc23 (n23 & Hn23 & Hf23)]. split; [auto|].
  exists (n12 ++ n23). split; [now rewrite Hn23, Hn12, app_assoc|].
  apply Forall_app. split; [exact Hf12|].
  eapply Forall_impl; [exact Hf23|]. intros id Hid. simpl in Hid.
  destruct (user_cache w1 !! id) as [c|] eqn:Hw1; [|reflexivity].
  apply Hc12 in Hw1. congruence.
Qed.

Lemma get_display_name_extends (r : Remote) (account_id : string) (w : World) :
  extends w (snd (get_display_name r account_id w)).
Proof.
  unfold get_display_name.
  destruct (user_cache w !! account_id) as [cached|] eqn:Hc; [apply extends_refl|].
  destruct (user r account_id) as [user_obj|e]; simpl; split; simpl.
  - intros id c Hid. rewrite lookup_insert_ne; [exact Hid|congruence].
  - exists [account_id]. split; [reflexivity|]. now constructor.
  - auto.
  - exists [account_id]. split; [reflexivity|]. now constructor.
Qed.

Lemma sub_mentions_extends (r : Remote) (s : string) (skip : nat) (w : World) :
  extends w (snd (sub_mentions r skip s w)).
Proof.
  revert skip w. induction s as [|c s IH]; intros skip w; [apply extends_refl|].
  cbn [sub_mentions]. destruct skip as [|n]; [|apply IH].
  destruct (match_mention (String c s)) as [[id rest]|].
  - pose proof (get_display_name_extends r id w) as H1.
    destruct (get_display_name r id w) as [nm w1]. simpl in H1.
    pose proof (IH (12 + String.length id) w1) as H2.
    destruct (sub_mentions r (12 + String.length id) s w1) as [out w2]. simpl in *.
    eapply extends_trans; eauto.
  - pose proof (IH 0 w) as H2. destruct (sub_mentions r 0 s w) as [out w2]. exact H2.
Qed.

Lemma resolve_mentions_extends (r : Remote) (text : string) (w : World) :
  extends w (snd (resolve_mentions r text w)).
Proof.
  unfold resolve_mentions. destruct text; [apply extends_refl|apply sub_mentions_extends].
Qed.

Lemma conversation_loop_extends (r : Remote) (cs : list Comment) (conv : string) (w : World) :
  extends w (snd (conversation_loop r cs conv w)).
Proof.
  revert conv w. induction cs as [|c cs IH]; intros conv w; [apply extends_refl|].
  cbn [conversation_loop]. destruct (comment_author r c); [|apply extends_refl].
  pose proof (resolve_mentions_extends r (Py.strip (body c)) w) as H1.
  destruct (resolve_mentions r (Py.strip (body c)) w) as [b w1]. simpl in H1.
  eapply extends_trans; [exact H1|apply IH].
Qed.

Lemma get_ticket_conversation_extends (r : Remote) (ticket_key : string) (w : World) :
  extends w (snd (get_ticket_conversation r ticket_key w)).
Proof.
  unfold get_ticket_conversation. destruct (issue r ticket_key) as [i|e]; [|apply extends_refl].
  destruct (fields i) as [f|]; [|apply extends_refl].
  pose proof (conversation_loop_extends r
                (Py.sorted String.ltb created (default [] (comments f))) EmptyString w) as H.
  destruct (conversation_loop r _ EmptyString w) as [[conv|e] w']; [destruct conv|]; exact H.
Qed.

(** X10: loading the details of a ticket (description and conversation) never
    changes or drops a name that is cached, and asks the remote service only
    for account ids that were not cached when it started. *)
Theorem details_keep_cache (r : Remote) (ticket : Ticket) (w : World) :
  let w' := snd (fetch_details r ticket w) in
  (forall account_id cached,
     user_cache w !! account_id = Some cached ->
     user_cache w' !! account_id = Some cached) /\
  exists new, user_calls w' = user_calls w ++ new /\
              Forall (fun account_id => user_cache w !! account_id = None) new.
Proof.
  change (extends w (snd (fetch_details r ticket w))). unfold fetch_details.
  destruct (fields ticket) as [f|]; [|apply extends_refl].
  set (d := match description f with Some (String _ _ as d) => d | _ => "No Description" end).
  pose proof (resolve_mentions_extends r d w) as H1.
  destruct (resolve_mentions r d w) as [text w1]. simpl in H1.
  pose proof (get_ticket_conversation_extends r (key ticket) w1) as H2.
  destruct (get_ticket_conversation r (key ticket) w1) as [conv w2]. simpl in *.
  eapply extends_trans; eauto.
Qed.

Lemma details_keep_cache_witness :
  let w := {| user_cache := {["u2" := "Bob"]}; user_calls := [] |} in
  let r := remote_full (Ok []) [issue_a1]
             [("u1", {| displayName := Some "Alice"; name := None |})] in
  user_cache (snd (fetch_details r issue_a1 w)) !! "u2" = Some "Bob".
Proof.
  apply details_keep_cache. vm_compute. reflexivity.
Defined.

(** X11: once a name has been fetched for an account id, every later call
    for that id answers the same name from the cache, neither asking the
    remote service nor changing the cache, whatever the remote service would
    answer by then. *)
Theorem fetched_name_is_kept (r r' : Remote) (account_id : string) (w : World)
    (user_obj : User) :
  user_cache w !! account_id = None -> user r account_id = Ok user_obj ->
  let '(name1, w1) := get_display_name r account_id w in
  get_display_name r' account_id w1 = (name1, w1) /\
  name1 = default account_id (displayName user_obj).
Proof.
  intros Hc Hu. unfold get_display_name at 1. rewrite Hc, Hu.
  unfold get_display_name. simpl. now rewrite lookup_insert_eq.
Qed.

Lemma fetched_name_is_kept_witness :
  let w := {| user_cache := ∅; user_calls := [] |} in
  get_display_name (remote_listing (Ok [])) "u1" (snd (get_display_name remote_team "u1" w))
  = ("Alice", snd (get_display_name remote_team "u1" w)).
Proof.
  pose proof (fetched_name_is_kept remote_team (remote_listing (Ok [])) "u1"
                {| user_cache := ∅; user_calls := [] |}
                {| displayName := Some "Alice"; name := None |} eq_refl eq_refl) as H.
  cbv zeta.
  destruct (get_display_name remote_team "u1" {| user_cache := ∅; user_calls := [] |})
    as [name1 w1].
  destruct H as [H ->]. exact H.
Defined.

(** ** The locked set in the configuration file *)

Lemma lstrip_by_idem (p : ascii -> bool) (s : string) :
  Py.lstrip_by p (Py.lstrip_by p s) = Py.lstrip_by p s.
Proof.
  induction s as [|c s IH]; [reflexivity|]. cbn [Py.lstrip_by].
  destruct (p c) eqn:Hc; [exact IH|]. cbn [Py.lstrip_by]. now rewrite Hc.
Qed.

Lemma rstrip_by_idem (p : ascii -> bool) (s : string) :
  Py.rstrip_by p (Py.rstrip_by p s) = Py.rstrip_by p s.
Proof.
  induction s as [|c s IH]; [reflexivity|]. cbn [Py.rstrip_by].
  destruct (Py.rstrip_by p s) as [|c' r] eqn:Hr.
  - destruct (p c) eqn:Hc; [reflexivity|]. cbn [Py.rstrip_by]. now rewrite Hc.
  - cbn [Py.rstrip_by] in *. now rewrite IH.
Qed.

Lemma rstrip_by_lstrip_by (p : ascii -> bool) (u : string) :
  Py.rstrip_by p u = u -> Py.rstrip_by p (Py.lstrip_by p u) = Py.lstrip_by p u.
Proof.
  induction u as [|c u IH]; [reflexivity|]. intros Hu. cbn [Py.lstrip_by].
  destruct (p c) eqn:Hc; [|exact Hu]. apply IH.
  cbn [Py.rstrip_by] in Hu. destruct (Py.rstrip_by p u) as [|c' r].
  - rewrite Hc in Hu. discriminate.
  - now injection Hu.
Qed.

Lemma strip_idem (s : string) : Py.strip (Py.strip s) = Py.strip s.
Proof.
  unfold Py.strip.
  rewrite (rstrip_by_lstrip_by Py.is_space (Py.rstrip_by Py.is_space s))
    by apply rstrip_by_idem.
  apply lstrip_by_idem.
Qed.

Lemma all_chars_lstrip_by (q p : ascii -> bool) (s : string) :
  all_chars q s = true -> all_chars q (Py.lstrip_by p s) = true.
Proof.
  induction s as [|c s IH]; [done|]. intros Hs. cbn [Py.lstrip_by].
  destruct (p c); [|exact Hs]. cbn [all_chars] in Hs.
  apply andb_true_iff in Hs as [_ Hs]. auto.
Qed.

Lemma all_chars_rstrip_by (q p : ascii -> bool) (s : string) :
  all_chars q s = true -> all_chars q (Py.rstrip_by p s) = true.
Proof.
  induction s as [|c s IH]; [done|]. intros Hs. cbn [all_chars] in Hs.
  apply andb_true_iff in Hs as [Hc Hs]. specialize (IH Hs). cbn [Py.rstrip_by].
  destruct (Py.rstrip_by p s) as [|c' r].
  - destruct (p c); [reflexivity|]. cbn [all_chars]. now rewrite Hc.
  - cbn [all_chars] in *. now rewrite Hc, IH.
Qed.

Lemma all_chars_strip (q : ascii -> bool) (s : string) :
  all_chars q s = true -> all_chars q (Py.strip s) = true.
Proof. intros Hs. now apply all_chars_lstrip_by, all_chars_rstrip_by. Qed.

Lemma split_pieces (sep : ascii) (s : string) :
  Forall (fun piece => all_chars (fun c => negb (Ascii.eqb c sep)) piece = true)
         (Py.split sep s).
Proof.
  induction s as [|c s IH]; [now repeat constructor|]. cbn [Py.split].
  destruct (Ascii.eqb c sep) eqn:Hc; [now constructor|].
  destruct (Py.split sep s) as [|h t]; [repeat constructor; cbn; now rewrite Hc|].
  apply Forall_cons in IH as [Hh Ht]. constructor; [|exact Ht].
  cbn [all_chars]. now rewrite Hc, Hh.
Qed.

Lemma split_whole (sep : ascii) (s : string) :
  all_chars (fun c => negb (Ascii.eqb c sep)) s = true -> Py.split sep s = [s].
Proof.
  induction s as [|c s IH]; [reflexivity|]. cbn [all_chars]. intros Hs.
  apply andb_true_iff in Hs as [Hc Hs]. apply negb_true_iff in Hc.
  cbn [Py.split]. now rewrite Hc, (IH Hs).
Qed.

Lemma split_app (sep : ascii) (a b : string) :
  all_chars (fun c => negb (Ascii.eqb c sep)) a = true ->
  Py.split sep (a +:+ String sep b) = a :: Py.split sep b.
Proof.
  induction a as [|c a IH].
  - intros _. change (EmptyString +:+ String sep b) with (String sep b).
    cbn [Py.split]. now rewrite Ascii.eqb_refl.
  - cbn [all_chars]. intros Ha. apply andb_true_iff in Ha as [Hc Ha].
    apply negb_true_iff in Hc. rewrite append_cons. cbn [Py.split].
    now rewrite Hc, (IH Ha).
Qed.

Lemma split_join (sep : ascii) (l : list string) :
  l <> [] ->
  Forall (fun k => all_chars (fun c => negb (Ascii.eqb c sep)) k = true) l ->
  Py.split sep (str_join (String sep EmptyString) l) = l.
Proof.
  intros Hne Hl. induction Hl as [|k l Hk Hl IH]; [done|].
  destruct l as [|k2 l]; [now apply split_whole|].
  change (str_join (String sep EmptyString) (k :: k2 :: l))
    with (k +:+ String sep (str_join (String sep EmptyString) (k2 :: l))).
  rewrite (split_app sep k _ Hk). f_equal. now apply IH.
Qed.

Lemma has_percent_app (a b : string) :
  has_percent (a +:+ b) = has_percent a || has_percent b.
Proof.
  induction a as [|c a IH]; [reflexivity|]. rewrite append_cons. cbn [has_percent].
  now rewrite IH, orb_assoc.
Qed.

Lemma plain_no_percent (s : string) : all_chars plain_char s = true -> has_percent s = false.
Proof.
  induction s as [|c s IH]; [reflexivity|]. cbn [all_chars has_percent]. intros Hs.
  apply andb_true_iff in Hs as [Hc Hs]. rewrite (IH Hs). unfold plain_char in Hc.
  destruct (Ascii.eqb c "%"); [|reflexivity].
  now rewrite andb_false_r in Hc.
Qed.

Lemma remove_escaped_plain (s : string) : has_percent s = false -> remove_escaped s = s.
Proof.
  induction s as [|c s IH]; [reflexivity|]. cbn [has_percent]. intros Hs.
  apply orb_false_iff in Hs as [Hc Hs]. cbn [remove_escaped].
  destruct s as [|c' rest]; [reflexivity|]. rewrite Hc. cbn [andb]. now rewrite (IH Hs).
Qed.

Lemma remove_references_plain (s : string) :
  has_percent s = false -> remove_references 0 s = s.
Proof.
  induction s as [|c s IH]; [reflexivity|]. cbn [has_percent]. intros Hs.
  apply orb_false_iff in Hs as [Hc Hs]. cbn [remove_references].
  assert (Hm : match_reference (String c s) = None).
  { unfold match_reference. destruct s as [|c2 t]; [reflexivity|]. now rewrite Hc. }
  now rewrite Hm, (IH Hs).
Qed.

Lemma before_set_plain (value : string) :
  has_percent value = false -> before_set value = Some value.
Proof.
  intros Hv. unfold before_set.
  now rewrite (remove_escaped_plain _ Hv), (remove_references_plain _ Hv), Hv.
Qed.

Lemma has_percent_join (sep : string) (l : list string) :
  has_percent sep = false -> Forall (fun k => has_percent k = false) l ->
  has_percent (str_join sep l) = false.
Proof.
  intros Hsep Hl. induction Hl as [|k l Hk Hl IH]; [reflexivity|].
  destruct l as [|k2 l]; [exact Hk|].
  change (str_join sep (k :: k2 :: l)) with (k +:+ sep +:+ str_join sep (k2 :: l)).
  now rewrite !has_percent_app, Hk, Hsep, IH.
Qed.

Lemma load_join_trimmed (locked : gset string) :
  (forall k, k ∈ locked -> trimmed_key k) ->
  load_locked_tickets
    (Some (str_join "," (Py.sorted String.ltb (fun k => k) (elements locked)))) = locked.
Proof.
  intros Hs.
  pose proof (sorted_Permutation String.ltb (fun k : string => k) (elements locked)) as Hperm.
  remember (Py.sorted String.ltb (fun k : string => k) (elements locked)) as l eqn:El.
  clear El.
  assert (Hl : Forall trimmed_key l).
  { apply Forall_forall. intros k Hk. apply Hs, elem_of_elements. now rewrite Hperm. }
  destruct l as [|k l'].
  - apply Permutation_nil_r in Hperm. apply elements_empty_inv in Hperm.
    apply leibniz_equiv in Hperm. now subst locked.
  - assert (Hstr : exists c s, str_join "," (k :: l') = String c s).
    { apply Forall_cons in Hl as [(Hk & _) _]. destruct k as [|c k]; [done|].
      destruct l'; [now exists c, k|]. cbn [str_join]. rewrite append_cons. eauto. }
    destruct Hstr as (c & s & Hstr). unfold load_locked_tickets.
    rewrite Hstr, <- Hstr.
    rewrite (split_join "," (k :: l')); [|done|].
    + assert (Hid : filter (fun ticket : string => ticket ≠ EmptyString)
                           (Py.strip <$> (k :: l')) = k :: l').
      { clear -Hl. induction Hl as [|x xs (Hx & _ & Hst) Hxs IH]; [reflexivity|].
        rewrite fmap_cons, Hst, filter_cons_True by done. now rewrite IH. }
      rewrite Hid. apply set_eq. intros x.
      rewrite elem_of_list_to_set, <- Hperm. apply elem_of_elements.
    + eapply Forall_impl; [exact Hl|]. intros x (_ & Hx & _). exact Hx.
Qed.

Lemma save_plain (locked : gset string) :
  (forall k, k ∈ locked -> all_chars plain_char k = true) ->
  save_locked_tickets locked
  = Some (str_join "," (Py.sorted String.ltb (fun k => k) (elements locked))).
Proof.
  intros Hs. unfold save_locked_tickets. apply before_set_plain.
  apply has_percent_join; [reflexivity|]. apply Forall_forall. intros k Hk.
  apply plain_no_percent, Hs, elem_of_elements.
  now rewrite (sorted_Permutation String.ltb (fun k : string => k) (elements locked)).
Qed.

Lemma load_trimmed (tickets_option : option string) (k : string) :
  k ∈ load_locked_tickets tickets_option -> trimmed_key k.
Proof.
  unfold load_locked_tickets. destruct tickets_option as [[|c s]|]; try set_solver.
  rewrite elem_of_list_to_set, list_elem_of_filter, list_elem_of_fmap.
  intros (Hne & piece & -> & Hp). repeat split.
  - exact Hne.
  - apply all_chars_strip. pose proof (split_pieces "," (String c s)) as H.
    rewrite Forall_forall in H. now apply H.
  - apply strip_idem.
Qed.

(** X12: a locked set whose keys are not empty, have no blank at either end
    and are made of ASCII characters other than the comma, the percent sign
    and the line breaks is saved as its keys in ascending order joined by
    commas, and that value, read in the next run, gives the same set; every
    key that is read is not empty, holds no comma and has no blank at either
    end, whatever the value holds; a set that was read and whose keys are
    made of ASCII characters other than the percent sign and the line breaks
    is saved and read again unchanged; a missing or empty value gives the
    empty set, which is saved as the empty value; and a key with a single
    percent sign makes the save fail with [ValueError]. *)
Theorem locked_set_survives_restart :
  (forall locked : gset string,
     (forall k, k ∈ locked -> storable k) ->
     save_locked_tickets locked
     = Some (str_join "," (Py.sorted String.ltb (fun k => k) (elements locked))) /\
     forall value, save_locked_tickets locked = Some value ->
       load_locked_tickets (Some value) = locked) /\
  (forall tickets_option k, k ∈ load_locked_tickets tickets_option -> trimmed_key k) /\
  (forall tickets_option,
     (forall k, k ∈ load_locked_tickets tickets_option -> all_chars plain_char k = true) ->
     exists value,
       save_locked_tickets (load_locked_tickets tickets_option) = Some value /\
       load_locked_tickets (Some value) = load_locked_tickets tickets_option) /\
  load_locked_tickets None = ∅ /\ load_locked_tickets (Some EmptyString) = ∅ /\
  save_locked_tickets ∅ = Some EmptyString /\
  save_locked_tickets {["A-1"; "50%"]} = None.
Proof.
  split; [|split; [exact load_trimmed|split]].
  - intros locked Hs.
    assert (Hsave := save_plain locked (fun k Hk => proj2 (Hs k Hk))).
    split; [exact Hsave|]. intros value Hv. rewrite Hsave in Hv. injection Hv as <-.
    apply load_join_trimmed. intros k Hk. exact (proj1 (Hs k Hk)).
  - intros o Hplain. eexists. split; [exact (save_plain _ Hplain)|].
    apply load_join_trimmed. intros k. apply load_trimmed.
  - repeat split; vm_compute; reflexivity.
Qed.

Lemma locked_set_survives_restart_witness :
  save_locked_tickets {["B-2"; "A-10"; "A-9"]} = Some "A-10,A-9,B-2" /\
  load_locked_tickets (Some "A-10,A-9,B-2") = {["B-2"; "A-10"; "A-9"]} /\
  elements (load_locked_tickets (Some " A-9 , ,B-2,A-9")) = elements ({["A-9"; "B-2"]} : gset string).
Proof.
  destruct locked_set_survives_restart as (H & _).
  destruct (H {["B-2"; "A-10"; "A-9"]}) as [Hsave Hload].
  { intros k Hk. rewrite !elem_of_union, !elem_of_singleton in Hk.
    destruct Hk as [[->| ->]| ->]; repeat split; discriminate. }
  assert (Hvalue : save_locked_tickets {["B-2"; "A-10"; "A-9"]} = Some "A-10,A-9,B-2").
  { rewrite Hsave. vm_compute. reflexivity. }
  split; [exact Hvalue|]. split; [exact (Hload _ Hvalue)|]. vm_compute. reflexivity.
Defined.

Example percent_sign_in_key :
  save_locked_tickets {["A%B-1"]} = None /\
  save_locked_tickets {["A%%B-1"]} = Some "A%%B-1" /\
  save_locked_tickets {["%(x)s"]} = Some "%(x)s" /\
  save_locked_tickets {["a%%%b"]} = None /\
  save_locked_tickets {["%()s"]} = None.
Proof. vm_compute. repeat split. Qed.

(** ** Tickets with equal sort keys *)

Section Stable.
Context {A K : Type} `{EqDecision K} (ltb : K -> K -> bool) (f : A -> K).
Hypothesis ltb_irrefl : forall x, ltb x x = false.

Lemma insert_by_filter_same (k : K) (x : A) (l : list A) :
  f x = k ->
  filter (fun y => f y = k) (Py.insert_by ltb f x l) = x :: filter (fun y => f y = k) l.
Proof using ltb_irrefl.
  intros Hx. induction l as [|y l IH]; cbn [Py.insert_by].
  - now rewrite filter_cons_True.
  - destruct (ltb (f y) (f x)) eqn:Hyx; [|now rewrite filter_cons_True].
    assert (Hy : f y <> k).
    { intros Hy. rewrite Hy, Hx, ltb_irrefl in Hyx. discriminate. }
    now rewrite !(filter_cons_False _ y) by done.
Qed.

Lemma insert_by_filter_other (k : K) (x : A) (l : list A) :
  f x <> k ->
  filter (fun y => f y = k) (Py.insert_by ltb f x l) = filter (fun y => f y = k) l.
Proof using Type.
  intros Hx. induction l as [|y l IH]; cbn [Py.insert_by].
  - now rewrite filter_cons_False.
  - destruct (ltb (f y) (f x)); [|now rewrite filter_cons_False].
    destruct (decide (f y = k)).
    + now rewrite !(filter_cons_True _ y), IH by done.
    + now rewrite !(filter_cons_False _ y) by done.
Qed.

Lemma sorted_filter_key (k : K) (l : list A) :
  filter (fun y => f y = k) (Py.sorted ltb f l) = filter (fun y => f y = k) l.
Proof using ltb_irrefl.
  induction l as [|x l IH]; [reflexivity|]. cbn [Py.sorted].
  destruct (decide (f x = k)) as [Hx|Hx].
  - now rewrite insert_by_filter_same, filter_cons_True, IH.
  - now rewrite insert_by_filter_other, filter_cons_False, IH.
Qed.
End Stable.

Lemma tuple_ltb_irrefl (a : Z * string * Z) : tuple_ltb a a = false.
Proof.
  destruct (tuple_ltb a a) eqn:H; [|reflexivity].
  pose proof (tuple_ltb_asym a a H). congruence.
Qed.

Lemma string_ltb_irrefl (a : string) : String.ltb a a = false.
Proof. unfold String.ltb. now rewrite string_compare_refl. Qed.

(** X18: the display keeps the order of the collection among tickets that
    sort alike (same lock status, prefix and number, as A-1 and A-01), and the
    conversation keeps the order of the remote service among comments with the
    same creation timestamp. *)
Theorem equal_keys_keep_order :
  (forall (locked : gset string) (l : list Ticket) (k : Z * string * Z),
     filter (fun ticket => sort_key locked ticket = k) (sorted_tickets locked l)
     = filter (fun ticket => sort_key locked ticket = k) l) /\
  (forall (cs : list Comment) (t : string),
     filter (fun c => created c = t) (Py.sorted String.ltb created cs)
     = filter (fun c => created c = t) cs).
Proof.
  split.
  - intros locked l k. apply sorted_filter_key, tuple_ltb_irrefl.
  - intros cs t. apply sorted_filter_key, string_ltb_irrefl.
Qed.

(** ** Selections that load nothing, and what the loader receives *)

(** X19: a selection that cannot load its ticket leaves the collection, the
    locked set, the page and the text panel as they are and starts no loader:
    a stub whose issue the remote service refuses is reported with the error,
    and a locked ticket is reported when the connection cannot be made. *)
Theorem failed_selection_keeps_state (r : Remote) (index : nat) (rest : list nat)
    (st : JiraUI) (ticket : Ticket) :
  tickets st !! index = Some ticket ->
  (forall e, fields ticket = None -> issue r (key ticket) = Raise e ->
     (if bool_decide (key ticket ∈ locked_tickets st)
      then connect r = Ok () else jira st = true) ->
     let '(st', msgs, loaded) := on_ticket_select r (index :: rest) st in
     tickets st' = tickets st /\ locked_tickets st' = locked_tickets st /\
     current_page st' = current_page st /\ text_display st' = text_display st /\
     loaded = None /\
     msgs = [showerror "Error" ("Failed to load ticket " +:+ key ticket +:+ ": " +:+ e)]) /\
  (forall e, key ticket ∈ locked_tickets st -> connect r = Raise e ->
     let '(st', msgs, loaded) := on_ticket_select r (index :: rest) st in
     tickets st' = tickets st /\ locked_tickets st' = locked_tickets st /\
     current_page st' = current_page st /\ text_display st' = text_display st /\
     loaded = None /\
     msgs = [showerror "Connection Error" ("Unable to connect to JIRA: " +:+ e);
             showerror "Error"
               ("Unable to connect to JIRA, cannot load ticket " +:+ key ticket)]).
Proof.
  intros Hi. split.
  - intros e Hf Hr Hc. unfold on_ticket_select, connect_jira.
    destruct (tickets st) as [|t0 l0] eqn:Ht; [discriminate|].
    rewrite Hi. rewrite <- Ht in *. clear Ht t0 l0.
    destruct (bool_decide (key ticket ∈ locked_tickets st)).
    + rewrite Hc. simpl. rewrite Hf, Hr. repeat split.
    + simpl. rewrite Hf, Hc, Hr. repeat split.
  - intros e Hl Hc. unfold on_ticket_select, connect_jira.
    destruct (tickets st) as [|t0 l0] eqn:Ht; [discriminate|].
    rewrite Hi. rewrite <- Ht in *. clear Ht t0 l0.
    rewrite bool_decide_eq_true_2 by done. rewrite Hc. simpl. repeat split.
Qed.

Lemma failed_selection_keeps_state_witness :
  let r := remote_listing (Ok []) in
  let st := set_jira true (init {["A-1"]}) in
  tickets (fst (fst (on_ticket_select r [0%nat] st))) = [dummy "A-1"] /\
  snd (fst (on_ticket_select r [0%nat] st))
  = [showerror "Error" "Failed to load ticket A-1: Issue Does Not Exist"] /\
  snd (on_ticket_select r [0%nat] st) = None.
Proof.
  cbv zeta.
  destruct (failed_selection_keeps_state (remote_listing (Ok [])) 0 []
              (set_jira true (init {["A-1"]})) (dummy "A-1")) as (H & _).
  - vm_compute. reflexivity.
  - specialize (H "Issue Does Not Exist" eq_refl eq_refl).
    assert (Hc : if bool_decide (key (dummy "A-1")
                                 ∈ locked_tickets (set_jira true (init {["A-1"]})))
                 then connect (remote_listing (Ok [])) = Ok ()
                 else jira (set_jira true (init {["A-1"]})) = true)
      by (vm_compute; reflexivity).
    specialize (H Hc). revert H.
    destruct (on_ticket_select (remote_listing (Ok [])) [0%nat]
                (set_jira true (init {["A-1"]}))) as [[st' msgs] loaded].
    intros (Ht & _ & _ & _ & Hl & Hm). cbn [fst snd].
    split; [|split; [|exact Hl]].
    + rewrite Ht. vm_compute. reflexivity.
    + rewrite Hm. vm_compute. reflexivity.
Defined.

(** X20: when the remote service answers issues with their fields, the
    ticket handed to the loader is never a stub, and the loader turns it into
    details that carry its key and its summary. *)
Theorem loader_receives_full_ticket (r : Remote) (selection : list nat) (st : JiraUI)
    (ticket : Ticket) (w : World) :
  (forall k i, issue r k = Ok i -> is_Some (fields i)) ->
  snd (on_ticket_select r selection st) = Some ticket ->
  exists f description conversation,
    fields ticket = Some f /\
    fst (fetch_details r ticket w) = Ok (key ticket, summary f, description, conversation).
Proof.
  intros Hr Hsel.
  assert (Hf : is_Some (fields ticket)).
  { revert Hsel. unfold on_ticket_select, connect_jira.
    repeat (break_inner; simpl); try discriminate; intros [= <-]; eauto. }
  destruct Hf as [f Hf]. unfold fetch_details. rewrite Hf.
  destruct (resolve_mentions r _ w) as [d w1].
  destruct (get_ticket_conversation r (key ticket) w1) as [c w2].
  exists f, d, c. split; reflexivity.
Qed.

Lemma loader_receives_full_ticket_witness :
  let r := remote_with (Ok []) [issue_a1] in
  exists f description conversation,
    fields issue_a1 = Some f /\
    fst (fetch_details r issue_a1 {| user_cache := ∅; user_calls := [] |})
    = Ok ("A-1", summary f, description, conversation).
Proof.
  apply (loader_receives_full_ticket (remote_with (Ok []) [issue_a1]) [0%nat]
           (init {["A-1"]}) issue_a1).
  - intros k i H. unfold remote_with, remote_full, issue in H. cbn [List.find] in H.
    destruct (String.eqb (key issue_a1) k); [|discriminate H].
    injection H as <-. eexists. reflexivity.
  - vm_compute. reflexivity.
Defined.

Lemma startup_collection_witness :
  tickets (init_in ["B-2"; "A-1"] {["A-1"; "B-2"]}) = [dummy "B-2"; dummy "A-1"] /\
  tickets (init_in ["A-1"; "B-2"] {["A-1"; "B-2"]}) = [dummy "A-1"; dummy "B-2"] /\
  "A-1" ∈ key <$> tickets (init {["A-1"; "B-2"]}).
Proof.
  destruct (startup_collection {["A-1"; "B-2"]}) as (_ & _ & Hm & _ & _ & Hin).
  split; [|split].
  - destruct (Hin ["B-2"; "A-1"]) as (Ht & _); [|exact Ht].
    apply (bool_decide_unpack _). vm_compute. exact I.
  - destruct (Hin ["A-1"; "B-2"]) as (Ht & _); [|exact Ht].
    apply (bool_decide_unpack _). vm_compute. exact I.
  - apply Hm. apply elem_of_union. left. now apply elem_of_singleton.
Defined.
